(** * object_detection.py: feature matching and clustering glue

    A shallow embedding of [src/object_detection.py].  The methods of the
    class [object_detection] are Rocq functions over an explicit record of
    the two threshold fields; Python exceptions are a result type; Python
    floats are the primitive binary64 floats, and the distances of the
    matcher are computed in binary32 as the library computes them.  The
    third-party calls (SIFT, the brute-force matcher, k-means) enter
    either as a concrete model of their documented behaviour (the
    matcher) or as an interface the development is parametric in (SIFT,
    the k-means fit). *)

From Stdlib Require Import ZArith List Bool Lia PeanoNat Floats.
From Stdlib Require Uint63.
Import ListNotations.

(* ================================================================== *)
(** ** Python results *)

Module Py.

(** The exceptions that can travel through the modelled code. *)
Inductive exn : Set :=
| ValueError    (* tuple unpacking of a row that has not two entries;
                   sklearn's input validation *)
| IndexError    (* list index out of range *)
| NameError     (* a local variable read before any assignment *)
| cv2_error.    (* an assertion of the OpenCV library *)

Inductive result (A : Type) : Type :=
| Ok (a : A)
| Raise (e : exn).

Arguments Ok {A} a.
Arguments Raise {A} e.

Definition bind {A B} (c : result A) (k : A -> result B) : result B :=
  match c with
  | Ok a => k a
  | Raise e => Raise e
  end.

(** [l[i]] for a non-negative index. *)
Definition getitem {A} (l : list A) (i : nat) : result A :=
  match nth_error l i with
  | Some a => Ok a
  | None => Raise IndexError
  end.

(** [[l[i] for i in idx]]. *)
Fixpoint getitems {A} (l : list A) (idx : list nat) : result (list A) :=
  match idx with
  | [] => Ok []
  | i :: rest =>
      bind (getitem l i) (fun a =>
      bind (getitems l rest) (fun r => Ok (a :: r)))
  end.

Definition raises {A} (c : result A) : Prop := exists e, c = Raise e.

End Py.

Import Py.

Notation "x <- c ;; k" := (Py.bind c (fun x => k))
  (at level 61, c at next level, right associativity).

(* ================================================================== *)
(** ** Float comparisons

    Python's [a > b], [a < b] and [a <= b] on floats are the IEEE
    comparisons: all of them are false when an operand is NaN. *)

Module FloatOrder.

Definition fgt (a b : float) : bool := (b <? a)%float.
Definition flt (a b : float) : bool := (a <? b)%float.
Definition fle (a b : float) : bool := (a <=? b)%float.

End FloatOrder.

Import FloatOrder.

(* ================================================================== *)
(** ** The OpenCV values the program handles *)

Module cv2.

(** [cv2.KeyPoint]: the program reads [pt] and [response] only. *)
Record KeyPoint : Set := mkKeyPoint {
  pt : float * float;
  response : float
}.

(** One row of a descriptor array. *)
Definition Descriptor : Set := list float.

(** A descriptor array as Python holds it: [None], which is what the
    binding returns for an array without data, or an array of rows,
    possibly of no row at all. *)
Definition descriptors : Set := option (list Descriptor).

Definition rows_of (a : descriptors) : list Descriptor :=
  match a with
  | Some rows => rows
  | None => []
  end.

(** [0 if a is None else len(a)]. *)
Definition rows (a : descriptors) : nat := length (rows_of a).

(** [cv2.DMatch]. *)
Record DMatch : Set := mkDMatch {
  queryIdx : nat;
  trainIdx : nat;
  distance : float
}.

(** *** [cv2.BFMatcher().knnMatch(queryDescriptors, trainDescriptors, k)]

    The brute-force matcher with its default norm (L2): for every row of
    the first argument, in order, the [k] rows of the second argument
    nearest to it (fewer when the second argument has fewer than [k]
    rows), by ascending distance, the lower index first among equals.
    A first argument without rows ([None] or an array of no row) gives
    no match row at all; otherwise a second argument that is [None]
    fails the matcher's assertion on the descriptor type, and one that
    is an array of no row gives one empty match row per query row.

    The descriptor arrays are binary32 and so is the arithmetic of the
    distance: the differences, their squares, the running sum and the
    square root are each rounded to binary32, and the result reaches
    Python as the double of the same value.  The squares are added from
    left to right; SIFT's descriptor entries are integers from 0 to
    255, for which every partial sum is exact in binary32 whatever the
    order of the additions.  Descriptor entries are numbers: a distance
    that is NaN, which the library would leave out of a row, does not
    arise from them. *)

Definition prec32 : Z := 24.
Definition emax32 : Z := 128.

(** The binary32 value of an array entry. *)
Definition float32_of (x : float) : spec_float :=
  match Prim2SF x with
  | S754_finite s m e => binary_round prec32 emax32 s m e
  | sf => sf
  end.

Definition normL2Sqr (a b : Descriptor) : spec_float :=
  fold_left
    (fun acc xy =>
       let t := SFsub prec32 emax32 (float32_of (fst xy)) (float32_of (snd xy)) in
       SFadd prec32 emax32 acc (SFmul prec32 emax32 t t))
    (combine a b) (S754_zero false).

Definition normL2 (a b : Descriptor) : float :=
  SF2Prim (SFsqrt prec32 emax32 (normL2Sqr a b)).

Fixpoint insert_match (c : DMatch) (best : list DMatch) : list DMatch :=
  match best with
  | [] => [c]
  | b :: rest =>
      if flt (distance c) (distance b) then c :: best
      else b :: insert_match c rest
  end.

Definition enumerate {A} (l : list A) : list (nat * A) :=
  combine (seq 0 (length l)) l.

Definition knn_step (k qi : nat) (q : Descriptor)
    (best : list DMatch) (it : nat * Descriptor) : list DMatch :=
  firstn k (insert_match (mkDMatch qi (fst it) (normL2 q (snd it))) best).

Definition knn_row (k : nat) (train : list Descriptor)
    (iq : nat * Descriptor) : list DMatch :=
  fold_left (knn_step k (fst iq) (snd iq)) (enumerate train) [].

Definition BFMatcher_knnMatch (query train : descriptors) (k : nat)
  : result (list (list DMatch)) :=
  match rows_of query with
  | [] => Ok []
  | _ :: _ =>
      match train with
      | None => Raise cv2_error
      | Some train_rows => Ok (map (knn_row k train_rows) (enumerate (rows_of query)))
      end
  end.

End cv2.

Import cv2.

(** [m] and [n] are a nearest and a second-nearest row of [train] for
    the descriptor [q]: no row is strictly closer than [m], and no row
    other than [m]'s is strictly closer than [n]. *)
Definition nearest_two (train : list Descriptor) (q : Descriptor)
    (m n : DMatch) : Prop :=
  trainIdx m <> trainIdx n /\
  (exists t, nth_error train (trainIdx m) = Some t /\ distance m = normL2 q t) /\
  (exists t, nth_error train (trainIdx n) = Some t /\ distance n = normL2 q t) /\
  (forall j t, nth_error train j = Some t ->
               flt (normL2 q t) (distance m) = false) /\
  (forall j t, nth_error train j = Some t -> j <> trainIdx m ->
               flt (normL2 q t) (distance n) = false).

(* ================================================================== *)
(** ** The class [object_detection] *)

(** The instance fields the methods read and write ([image_dir] is only
    the path the host loads the training image from). *)
Record object_detection : Set := mkSelf {
  corner_threshold : float;
  close_match_threshold : float
}.

(** [__init__]. *)
Definition init : object_detection :=
  {| corner_threshold := 0; close_match_threshold := 1 |}.

(** *** [corner_match] *)

(** The condition of the [if] in the loop body; [and] evaluates its
    right operand, and so indexes [new_corners], only when the left one
    holds. *)
Definition is_good_match (self : object_detection)
    (new_corners : list KeyPoint) (m n : DMatch) : result bool :=
  if flt (distance m) (close_match_threshold self * distance n) then
    c <- getitem new_corners (trainIdx m) ;;
    Ok (fgt (response c) (corner_threshold self))
  else Ok false.

(** [for m, n in matches: ...], with [good_matches] as accumulator. *)
Fixpoint good_matches_loop (self : object_detection)
    (new_corners : list KeyPoint) (matches : list (list DMatch))
    (good_matches : list (nat * nat)) : result (list (nat * nat)) :=
  match matches with
  | [] => Ok good_matches
  | [m; n] :: rest =>
      b <- is_good_match self new_corners m n ;;
      good_matches_loop self new_corners rest
        (if b then good_matches ++ [(queryIdx m, trainIdx m)]
         else good_matches)
  | _ :: _ => Raise ValueError
  end.

(** The list [corner_idx] the method builds. *)
Definition corner_idx_of (self : object_detection)
    (original new : descriptors) (new_corners : list KeyPoint)
  : result (list nat) :=
  matches <- BFMatcher_knnMatch original new 2 ;;
  good_matches <- good_matches_loop self new_corners matches [] ;;
  Ok (map snd good_matches).

Definition corner_match (self : object_detection)
    (original new : descriptors) (new_corners : list KeyPoint)
  : result (list KeyPoint) :=
  corner_idx <- corner_idx_of self original new new_corners ;;
  getitems new_corners corner_idx.

(** A declarative reading of the loop, for the statements below: what
    one row of the matcher's answer adds to [good_matches], and the
    keypoint one row of [original] contributes to the result. *)
Definition kept (self : object_detection) (new_corners : list KeyPoint)
    (row : list DMatch) : list (nat * nat) :=
  match row with
  | [m; n] =>
      match is_good_match self new_corners m n with
      | Ok true => [(queryIdx m, trainIdx m)]
      | _ => []
      end
  | _ => []
  end.

Definition contribution (self : object_detection)
    (new : list Descriptor) (new_corners : list KeyPoint)
    (ir : nat * Descriptor) : list KeyPoint :=
  match knn_row 2 new ir with
  | [m; n] =>
      if flt (distance m) (close_match_threshold self * distance n) then
        match nth_error new_corners (trainIdx m) with
        | Some c => if fgt (response c) (corner_threshold self) then [c] else []
        | None => []
        end
      else []
  | _ => []
  end.


(** *** [find_x], [find_y] *)

Definition find_x (corners : list KeyPoint) : list float :=
  map (fun corner => fst (pt corner)) corners.

Definition find_y (corners : list KeyPoint) : list float :=
  map (fun corner => snd (pt corner)) corners.

(** *** The slider callbacks

    [value] is the trackbar position, a machine integer; its conversion
    to a float is the correctly rounded one (exact below 2^53). *)

Definition float_of_int (value : Z) : float :=
  SF2Prim (binary_normalize prec emax value 0 false).

Definition change_corner_threshold (self : object_detection) (value : Z)
  : object_detection :=
  {| corner_threshold := (float_of_int value / 1000)%float;
     close_match_threshold := close_match_threshold self |}.

Definition change_match_threshold (self : object_detection) (value : Z)
  : object_detection :=
  {| corner_threshold := corner_threshold self;
     close_match_threshold := (float_of_int value / 100)%float |}.

(* ================================================================== *)
(** ** The third-party collaborators the methods call *)

(** [cv2.cvtColor(_, COLOR_BGR2GRAY)] and a fresh [cv2.SIFT_create()]:
    deterministic functions of the image they are given.  The second
    component of [SIFT_compute] is the descriptor array as Python
    receives it. *)
Class Vision : Type := {
  Image : Type;
  cvtColor_BGR2GRAY : Image -> Image;
  SIFT_detect : Image -> list KeyPoint;
  SIFT_compute : Image -> list KeyPoint -> list KeyPoint * descriptors
}.

(** What the loop relies on from [SIFT.compute]: as many descriptor
    rows as keypoints it is given ([None] counting as no row). *)
Definition SIFT_compute_one_row_each `{Vision} : Prop :=
  forall image_bw corners,
    rows (snd (SIFT_compute image_bw corners)) = length corners.

(** [KMeans(init='random', n_clusters=4).fit(points).cluster_centers_]:
    the centres, or the exception the fit raised.  One outcome of the
    random initialisation is one such function. *)
Class Clustering : Type := {
  KMeans_fit : list (float * float) -> result (list (float * float))
}.

Section Methods.

Context `{V : Vision} `{K : Clustering}.

(** *** [find_corners] *)
Definition find_corners (self : object_detection) (image : Image)
  : list KeyPoint :=
  let image_bw := cvtColor_BGR2GRAY image in
  let corners := SIFT_detect image_bw in
  filter (fun corner => fgt (response corner) (corner_threshold self)) corners.

(** *** [find_descriptors] *)
Definition find_descriptors (self : object_detection) (image : Image)
  : descriptors :=
  let corners := find_corners self image in
  let image_bw := cvtColor_BGR2GRAY image in
  snd (SIFT_compute image_bw corners).

(** *** [find_four_clusters]

    [None] is Python's [None]; every exception of [Py.exn] derives from
    [Exception], so the [except] clause catches whatever the fit raises. *)
Definition find_four_clusters (corners : list KeyPoint)
  : result (option (list (float * float))) :=
  let x := find_x corners in
  let y := find_y corners in
  let points := combine x y in
  match KMeans_fit points with
  | Raise _ => Ok None
  | Ok cluster_centers_ => Ok (Some cluster_centers_)
  end.

(** *** The [while True] loop of [__main__] *)

(** The two names that live across iterations.  The outer [None] is a
    name that no iteration has assigned yet. *)
Record loop_vars : Type := mkVars {
  good_corners : option (list KeyPoint);
  cluster_coords : option (option (list (float * float)))
}.

Definition unbound : loop_vars :=
  {| good_corners := None; cluster_coords := None |}.

(** What one iteration draws before [imshow]: the green circles (one
    per entry of [cluster_coords]) and the red ones (one per good
    corner). *)
Record overlay : Type := mkOverlay {
  centroids_drawn : list (float * float);
  corners_drawn : list KeyPoint
}.

Definition read {A} (name : option A) : result A :=
  match name with
  | Some v => Ok v
  | None => Raise NameError
  end.

(** One pass through the loop body on the frame [cap.read()] delivered;
    [None] for the overlay is a [continue]. *)
Definition iteration (self : object_detection)
    (train_descriptors : descriptors)
    (vars : loop_vars) (frame : option Image)
  : result (loop_vars * option overlay) :=
  match frame with
  | None => Ok (vars, None)
  | Some frame =>
      let new_corners := find_corners self frame in
      if (1 <? length new_corners)%nat then
        let new_descriptors := find_descriptors self frame in
        good <- corner_match self train_descriptors new_descriptors new_corners ;;
        coords <-
          (if (5 <? length good)%nat then
             c <- find_four_clusters good ;; Ok (Some c)
           else Ok (cluster_coords vars)) ;;
        let vars' := {| good_corners := Some good; cluster_coords := coords |} in
        cc <- read (cluster_coords vars') ;;
        good' <- read (good_corners vars') ;;
        Ok (vars',
            Some {| centroids_drawn :=
                      match cc with Some cs => cs | None => [] end;
                    corners_drawn := good' |})
      else Ok (vars, None)
  end.

(** The loop over the frames delivered, each with the threshold fields
    in force while it is processed (the sliders fire between frames). *)
Fixpoint run (train_descriptors : descriptors) (vars : loop_vars)
    (frames : list (object_detection * option Image))
  : result (list (option overlay)) :=
  match frames with
  | [] => Ok []
  | (self, frame) :: rest =>
      r <- iteration self train_descriptors vars frame ;;
      shown <- run train_descriptors (fst r) rest ;;
      Ok (snd r :: shown)
  end.

(** [__main__] from the creation of the object to the loop: the
    training image's corners and descriptors are computed once, at the
    thresholds of [__init__], and the loop starts with neither name
    assigned. *)
Definition main (train_image : Image)
    (frames : list (object_detection * option Image))
  : result (list (option overlay)) :=
  let od := init in
  let train_corners := find_corners od train_image in
  let train_descriptors := find_descriptors od train_image in
  run train_descriptors unbound frames.

End Methods.

(* ================================================================== *)
(** ** Stand-ins for the collaborators, for concrete runs *)

Module Synthetic.

(** A synthetic image is the list of keypoints a detector finds in it;
    the descriptor of a keypoint is read off its position, and no
    keypoint gives [None], as it does with the Python binding. *)
Definition descriptor_of (corner : KeyPoint) : Descriptor :=
  [fst (pt corner); snd (pt corner)].

Definition describe (corners : list KeyPoint) : descriptors :=
  match corners with
  | [] => None
  | _ :: _ => Some (map descriptor_of corners)
  end.

#[export] Instance vision : Vision := {|
  Image := list KeyPoint;
  cvtColor_BGR2GRAY := fun image => image;
  SIFT_detect := fun image_bw => image_bw;
  SIFT_compute := fun _ corners => (corners, describe corners)
|}.

(** A stand-in for the k-means fit, for the concrete runs only: after
    the two input checks scikit-learn makes (at least as many samples
    as clusters, no NaN and no infinity), Lloyd's iteration from the
    first four samples, which is one of the initialisations
    [init='random'] can draw.  It is not scikit-learn's numerical
    procedure, which centres the data, relocates empty clusters and
    stops on a tolerance.  On samples that all coincide, the only ones
    it is run on below, every centre is that sample, as with any
    k-means. *)
Definition is_number (x : float) : bool :=
  negb (PrimFloat.is_nan x || PrimFloat.is_infinity x).

Definition sqdist (p c : float * float) : float :=
  ((fst p - fst c) * (fst p - fst c) + (snd p - snd c) * (snd p - snd c))%float.

Fixpoint nearest_from (p : float * float) (centres : list (float * float))
    (i best : nat) (best_d : float) : nat :=
  match centres with
  | [] => best
  | c :: cs =>
      if flt (sqdist p c) best_d then nearest_from p cs (S i) i (sqdist p c)
      else nearest_from p cs (S i) best best_d
  end.

Definition label (centres : list (float * float)) (p : float * float) : nat :=
  match centres with
  | [] => 0%nat
  | c :: cs => nearest_from p cs 1 0 (sqdist p c)
  end.

Definition mean (members : list (float * float)) (old : float * float)
  : float * float :=
  match members with
  | [] => old
  | _ :: _ =>
      let n := float_of_int (Z.of_nat (length members)) in
      (fold_left (fun acc p => acc + fst p) members 0 / n,
       fold_left (fun acc p => acc + snd p) members 0 / n)%float
  end.

Definition lloyd_step (points centres : list (float * float))
  : list (float * float) :=
  map (fun jc =>
         mean (filter (fun p => (label centres p =? fst jc)%nat) points) (snd jc))
      (enumerate centres).

Definition same_point (p q : float * float) : bool :=
  PrimFloat.Leibniz.eqb (fst p) (fst q) && PrimFloat.Leibniz.eqb (snd p) (snd q).

Fixpoint lloyd (max_iter : nat) (points centres : list (float * float))
  : list (float * float) :=
  match max_iter with
  | O => centres
  | S more =>
      let centres' := lloyd_step points centres in
      if forallb (fun cc => same_point (fst cc) (snd cc)) (combine centres' centres)
      then centres'
      else lloyd more points centres'
  end.

Definition lloyd_fit (points : list (float * float))
  : result (list (float * float)) :=
  if (length points <? 4)%nat then Raise ValueError
  else if forallb (fun p => is_number (fst p) && is_number (snd p)) points
       then Ok (lloyd 300 points (firstn 4 points))
       else Raise ValueError.

Definition clustering : Clustering := {| KMeans_fit := lloyd_fit |}.

End Synthetic.

(* ================================================================== *)
(** ** Concrete inputs used in the examples *)

Module Scenario.

Import Synthetic.

Definition kA : KeyPoint := mkKeyPoint (0, 0)%float 0.5%float.
Definition kB : KeyPoint := mkKeyPoint (10, 0)%float 0.5%float.

(** A frame with the two corners [kA] and [kB]. *)
Definition frame_AB : @Image vision := [kA; kB].

(** Three reference descriptors, all of them nearer to [kA] than to [kB]. *)
Definition reference3 : list Descriptor :=
  [[1; 0]; [2; 0]; [3; 0]]%float.

(** Six reference descriptors, again all nearest to [kA], and a
    training image that has them. *)
Definition reference6 : list Descriptor :=
  [[1; 0]; [2; 0]; [3; 0]; [4; 0]; [-1; 0]; [-2; 0]]%float.

Definition train_image6 : @Image vision :=
  map (fun xy => mkKeyPoint xy 0.5%float)
    [(1, 0); (2, 0); (3, 0); (4, 0); (-1, 0); (-2, 0)]%float.

(** A frame whose two corners are equally far from every row of
    [reference6], so that no row passes the ratio test. *)
Definition kC : KeyPoint := mkKeyPoint (0, 5)%float 0.5%float.
Definition kD : KeyPoint := mkKeyPoint (0, -5)%float 0.5%float.
Definition frame_CD : @Image vision := [kC; kD].

(** A frame with two strong corners and a weak one. *)
Definition k1 : KeyPoint := mkKeyPoint (0, 0)%float 0.5%float.
Definition k2 : KeyPoint := mkKeyPoint (10, 0)%float 0.5%float.
Definition k3 : KeyPoint := mkKeyPoint (20, 0)%float 0.03125%float.
Definition frame_weak : @Image vision := [k1; k2; k3].

(** One reference descriptor, nearest to the weak corner. *)
Definition reference_weak : list Descriptor := [[21; 0]]%float.

(** The slider at 50, and back at 0. *)
Definition slider50 : object_detection := change_corner_threshold init 50.
Definition slider0 : object_detection := change_corner_threshold slider50 0.

(** The fit used in the concrete runs. *)
Definition stand_in_fit : Clustering := clustering.

(** A frame none of whose corners is above the slider at 50. *)
Definition frame_faint : @Image vision := [k3].

(** The loop state that the frame [frame_AB], matched against
    [reference6], leaves behind. *)
Definition after_frame_AB : loop_vars :=
  {| good_corners := Some (repeat kA 6);
     cluster_coords := Some (Some (repeat (pt kA) 4)) |}.

End Scenario.

(* ================================================================== *)
(** ** The specification's reading of the match filter

    Section 4.4 of the specification, for comparison with
    [corner_match]: every query descriptor is matched against the
    reference set, and its own keypoint is kept when the ratio test and
    the strength test pass. *)

Module Spec.

Definition accepts (cornerThreshold matchRatioThreshold : float)
    (referenceDescriptors : list Descriptor)
    (q : Descriptor) (keypoint : KeyPoint) : bool :=
  match knn_row 2 referenceDescriptors (0%nat, q) with
  | [m; n] =>
      flt (distance m) (matchRatioThreshold * distance n)
      && fgt (response keypoint) cornerThreshold
  | _ => false
  end.

Definition filter_matches (referenceDescriptors queryDescriptors : list Descriptor)
    (queryKeypoints : list KeyPoint)
    (cornerThreshold matchRatioThreshold : float) : list KeyPoint :=
  map snd
    (filter (fun qk => accepts cornerThreshold matchRatioThreshold
                         referenceDescriptors (fst qk) (snd qk))
            (combine queryDescriptors queryKeypoints)).

End Spec.

(* ================================================================== *)
(** * Properties *)

(** ** Order facts on floats *)

Module FloatOrderFacts.

Ltac cmp_cases :=
  repeat match goal with
  | H : context [(?a ?= ?b)%Z] |- _ => destruct (Z.compare_spec a b)
  | H : context [(?a ?= ?b)%positive] |- _ => destruct (Pos.compare_spec a b)
  | |- context [(?a ?= ?b)%Z] => destruct (Z.compare_spec a b)
  | |- context [(?a ?= ?b)%positive] => destruct (Pos.compare_spec a b)
  end;
  simpl in *; try discriminate; try reflexivity; try lia.

Ltac sf_cases a :=
  let s := fresh "s" in let m := fresh "m" in let e := fresh "e" in
  destruct a as [s|s| |s m e]; try destruct s.

Lemma SFltb_SFleb_flip (a b : spec_float) :
  SFltb a b = true -> SFleb b a = false.
Proof.
  unfold SFltb, SFleb, SFcompare.
  sf_cases a; sf_cases b; simpl; try discriminate; try reflexivity;
    change (Pos.compare_cont Eq) with Pos.compare; intros H; cmp_cases.
Qed.

Lemma SFleb_SFltb_trans (a b c : spec_float) :
  SFleb a b = true -> SFltb b c = true -> SFltb a c = true.
Proof.
  unfold SFltb, SFleb, SFcompare.
  sf_cases a; sf_cases b; simpl; try discriminate;
    sf_cases c; simpl; try discriminate; try reflexivity;
    change (Pos.compare_cont Eq) with Pos.compare; intros H1 H2; cmp_cases.
Qed.

(** [a > b] excludes [a <= b]. *)
Lemma fgt_not_fle (a b : float) : fgt a b = true -> fle a b = false.
Proof.
  unfold fgt, fle. rewrite ltb_spec, leb_spec. apply SFltb_SFleb_flip.
Qed.

(** [t1 <= t2] and [r > t2] give [r > t1]. *)
Lemma fgt_fle_trans (t1 t2 r : float) :
  fle t1 t2 = true -> fgt r t2 = true -> fgt r t1 = true.
Proof.
  unfold fgt, fle. rewrite !ltb_spec, leb_spec. apply SFleb_SFltb_trans.
Qed.


Lemma SFltb_trans (a b c : spec_float) :
  SFltb a b = true -> SFltb b c = true -> SFltb a c = true.
Proof.
  unfold SFltb, SFcompare.
  sf_cases a; sf_cases b; simpl; try discriminate;
    sf_cases c; simpl; try discriminate; try reflexivity;
    change (Pos.compare_cont Eq) with Pos.compare; intros H1 H2; cmp_cases.
Qed.

Lemma flt_trans (a b c : float) :
  flt a b = true -> flt b c = true -> flt a c = true.
Proof.
  unfold flt. rewrite !ltb_spec. apply SFltb_trans.
Qed.

Lemma flt_irrefl (a : float) : flt a a = false.
Proof.
  unfold flt. rewrite ltb_spec. unfold SFltb, SFcompare.
  destruct (Prim2SF a) as [s|s| |s m e]; try destruct s; simpl; try reflexivity;
    change (Pos.compare_cont Eq) with Pos.compare;
    rewrite Z.compare_refl, Pos.compare_refl; reflexivity.
Qed.

End FloatOrderFacts.

Import FloatOrderFacts.

(* ================================================================== *)
(** ** The brute-force matcher *)

Module MatcherFacts.

Lemma In_firstn {A} (k : nat) (l : list A) (x : A) :
  In x (firstn k l) -> In x l.
Proof.
  revert l; induction k as [|k IH]; intros [|a l]; simpl; try tauto.
  intros [->|H]; auto.
Qed.

Lemma insert_match_length (c : DMatch) (best : list DMatch) :
  length (insert_match c best) = S (length best).
Proof.
  induction best as [|b rest IH]; simpl; [reflexivity|].
  destruct (flt (distance c) (distance b)); simpl; congruence.
Qed.

Lemma insert_match_In (c : DMatch) (best : list DMatch) (m : DMatch) :
  In m (insert_match c best) -> m = c \/ In m best.
Proof.
  induction best as [|b rest IH]; simpl.
  - intros [<-|[]]; auto.
  - destruct (flt (distance c) (distance b)); simpl.
    + intros [<-|[<-|H]]; auto.
    + intros [<-|H]; auto. destruct (IH H); auto.
Qed.

Lemma enumerate_from_In {A} (l : list A) (s j : nat) (a : A) :
  In (j, a) (combine (seq s (length l)) l) ->
  (s <= j)%nat /\ nth_error l (j - s) = Some a.
Proof.
  revert s; induction l as [|x l IH]; intros s; simpl; [tauto|].
  intros [H|H].
  - inversion H; subst. rewrite Nat.sub_diag. split; [lia|reflexivity].
  - apply IH in H as [Hle Hn]. split; [lia|].
    replace (j - s)%nat with (S (j - S s)) by lia. exact Hn.
Qed.

Lemma enumerate_In {A} (l : list A) (j : nat) (a : A) :
  In (j, a) (enumerate l) -> nth_error l j = Some a.
Proof.
  intros H. apply enumerate_from_In in H as [_ H].
  now rewrite Nat.sub_0_r in H.
Qed.

Lemma nth_error_enumerate_from {A} (l : list A) (s j : nat) (a : A) :
  nth_error l j = Some a -> In ((s + j)%nat, a) (combine (seq s (length l)) l).
Proof.
  revert s j; induction l as [|x l IH]; intros s [|j]; simpl; try discriminate.
  - intros [= ->]. left. f_equal. lia.
  - intros H. right. replace (s + S j)%nat with (S s + j)%nat by lia. now apply IH.
Qed.

Lemma nth_error_enumerate {A} (l : list A) (j : nat) (a : A) :
  nth_error l j = Some a -> In (j, a) (enumerate l).
Proof. intros H. exact (nth_error_enumerate_from l 0 j a H). Qed.

Lemma enumerate_fst {A} (l : list A) :
  map fst (enumerate l) = seq 0 (length l).
Proof.
  unfold enumerate. generalize 0%nat.
  induction l as [|x l IH]; intros s; simpl; [reflexivity|].
  now rewrite IH.
Qed.

Lemma enumerate_length {A} (l : list A) : length (enumerate l) = length l.
Proof.
  unfold enumerate. rewrite length_combine, length_seq. lia.
Qed.

Section Row.

Variables (k qi : nat) (q : Descriptor).

Let mk (it : nat * Descriptor) : DMatch :=
  mkDMatch qi (fst it) (normL2 q (snd it)).

Lemma knn_fold_In (items : list (nat * Descriptor)) (best : list DMatch) (m : DMatch) :
  In m (fold_left (knn_step k qi q) items best) ->
  In m best \/ exists it, In it items /\ m = mk it.
Proof.
  revert best; induction items as [|it items IH]; intros best; simpl; [auto|].
  intros H. apply IH in H as [H|(it' & Hin & ->)].
  - unfold knn_step in H. apply In_firstn, insert_match_In in H as [->|H]; [|auto].
    right. exists it. auto.
  - right. exists it'. auto.
Qed.

Lemma knn_fold_length (items : list (nat * Descriptor)) (best : list DMatch) :
  (length best <= k)%nat ->
  length (fold_left (knn_step k qi q) items best)
  = Nat.min k (length best + length items).
Proof.
  revert best; induction items as [|it items IH]; intros best Hk; simpl.
  - lia.
  - rewrite IH; unfold knn_step; rewrite length_firstn, insert_match_length; lia.
Qed.

End Row.

(** A row has [min k (len train)] entries... *)
Lemma knn_row_length (k : nat) (train : list Descriptor) (iq : nat * Descriptor) :
  length (knn_row k train iq) = Nat.min k (length train).
Proof.
  unfold knn_row. rewrite knn_fold_length by (simpl; lia).
  now rewrite enumerate_length.
Qed.

(** ... each of them the distance from the query row to the train row
    it names. *)
Lemma knn_row_entry (k : nat) (train : list Descriptor) (iq : nat * Descriptor)
    (m : DMatch) :
  In m (knn_row k train iq) ->
  queryIdx m = fst iq /\
  exists t, nth_error train (trainIdx m) = Some t /\
            distance m = normL2 (snd iq) t.
Proof.
  unfold knn_row. intros H. apply knn_fold_In in H as [[]|([j t] & Hin & ->)].
  simpl. split; [reflexivity|]. exists t. split; [|reflexivity].
  now apply enumerate_In.
Qed.

Lemma knn_row_trainIdx (k : nat) (train : list Descriptor) (iq : nat * Descriptor)
    (m : DMatch) :
  In m (knn_row k train iq) -> (trainIdx m < length train)%nat.
Proof.
  intros H. apply knn_row_entry in H as (_ & t & Ht & _).
  apply nth_error_Some. congruence.
Qed.

End MatcherFacts.

Import MatcherFacts.

(** ** The two entries of a row are the two nearest train rows *)

Module NearestFacts.

Section Nearest.

Variables (qi : nat) (q : Descriptor).

Let d (it : nat * Descriptor) : float := normL2 q (snd it).

Let mk (it : nat * Descriptor) : DMatch := mkDMatch qi (fst it) (d it).

(** What [best] is after the items [seen] have been offered. *)
Let holds (seen : list (nat * Descriptor)) (best : list DMatch) : Prop :=
  match best with
  | [] => seen = []
  | [m] => exists it, seen = [it] /\ m = mk it
  | [m; n] =>
      (exists it, In it seen /\ m = mk it) /\
      (exists it, In it seen /\ n = mk it) /\
      trainIdx m <> trainIdx n /\
      (forall it, In it seen -> flt (d it) (distance m) = false) /\
      (forall it, In it seen -> fst it <> trainIdx m ->
                  flt (d it) (distance n) = false)
  | _ => False
  end.

Lemma flt_false_trans (a b c : float) :
  flt a c = false -> flt b c = true -> flt a b = false.
Proof.
  intros Hac Hbc. destruct (flt a b) eqn:Hab; [|reflexivity].
  rewrite (flt_trans a b c Hab Hbc) in Hac. discriminate.
Qed.

Lemma holds_step (seen : list (nat * Descriptor)) (best : list DMatch)
    (it : nat * Descriptor) :
  ~ In (fst it) (map fst seen) ->
  holds seen best ->
  holds (seen ++ [it]) (knn_step 2 qi q best it).
Proof.
  intros Hnew H. unfold knn_step. fold (d it). fold (mk it).
  assert (Hfresh : forall it', In it' seen -> fst it' <> fst it).
  { intros it' Hin Heq. apply Hnew. rewrite <- Heq. now apply in_map. }
  destruct best as [|m [|n [|x rest]]]; simpl in H.
  - subst seen. simpl. exists it. auto.
  - destruct H as (itm & -> & ->). simpl.
    destruct (flt (d it) (d itm)) eqn:Hc; simpl.
    + repeat split.
      * exists it. simpl; auto.
      * exists itm. simpl; auto.
      * intros Heq. apply (Hfresh itm); simpl; auto.
      * intros it' [E|[E|[]]]; subst it'.
        -- apply (flt_false_trans _ _ (d itm)); [apply flt_irrefl|exact Hc].
        -- apply flt_irrefl.
      * intros it' [E|[E|[]]] Hne; subst it'.
        -- apply flt_irrefl.
        -- now elim Hne.
    + repeat split.
      * exists itm. simpl; auto.
      * exists it. simpl; auto.
      * intros Heq. apply (Hfresh itm); simpl; auto.
      * intros it' [E|[E|[]]]; subst it'; [apply flt_irrefl|exact Hc].
      * intros it' [E|[E|[]]] Hne; subst it'; [now elim Hne|apply flt_irrefl].
  - destruct H as ((itm & Him & ->) & (itn & Hin & ->) & Hmn & Hm & Hn).
    simpl in Hmn, Hm, Hn |- *.
    destruct (flt (d it) (d itm)) eqn:Hc; simpl.
    + repeat split.
      * exists it. split; [apply in_or_app; simpl; auto|reflexivity].
      * exists itm. split; [apply in_or_app; auto|reflexivity].
      * simpl. intros Heq. apply (Hfresh itm Him). congruence.
      * intros it' Hi. apply in_app_or in Hi as [Hi|[<-|[]]].
        -- apply (flt_false_trans _ _ (d itm)); auto.
        -- apply flt_irrefl.
      * simpl. intros it' Hi Hne. apply in_app_or in Hi as [Hi|[E|[]]].
        -- auto.
        -- subst it'. now elim Hne.
    + destruct (flt (d it) (d itn)) eqn:Hc2; simpl.
      * repeat split.
        -- exists itm. split; [apply in_or_app; auto|reflexivity].
        -- exists it. split; [apply in_or_app; simpl; auto|reflexivity].
        -- simpl. intros Heq. apply (Hfresh itm Him). congruence.
        -- intros it' Hi. apply in_app_or in Hi as [Hi|[<-|[]]]; auto.
        -- simpl. intros it' Hi Hne. apply in_app_or in Hi as [Hi|[<-|[]]].
           ++ apply (flt_false_trans _ _ (d itn)); auto.
           ++ apply flt_irrefl.
      * repeat split.
        -- exists itm. split; [apply in_or_app; auto|reflexivity].
        -- exists itn. split; [apply in_or_app; auto|reflexivity].
        -- exact Hmn.
        -- intros it' Hi. apply in_app_or in Hi as [Hi|[<-|[]]]; auto.
        -- simpl. intros it' Hi Hne. apply in_app_or in Hi as [Hi|[<-|[]]]; auto.
  - destruct H.
Qed.

Lemma holds_fold (items seen : list (nat * Descriptor)) (best : list DMatch) :
  NoDup (map fst (seen ++ items)) ->
  holds seen best ->
  holds (seen ++ items) (fold_left (knn_step 2 qi q) items best).
Proof.
  revert seen best; induction items as [|it items IH]; intros seen best Hnd H; simpl.
  - now rewrite app_nil_r.
  - replace (seen ++ it :: items) with ((seen ++ [it]) ++ items)
      by (now rewrite <- app_assoc).
    apply IH.
    + now rewrite <- app_assoc.
    + apply holds_step; [|exact H].
      rewrite map_app in Hnd. simpl in Hnd.
      apply NoDup_remove_2 in Hnd. intros Hin. apply Hnd.
      apply in_or_app. auto.
Qed.

End Nearest.

(** A row of two entries names a nearest and a second-nearest train
    row, in this order. *)
Lemma knn_row_nearest_two (train : list Descriptor) (iq : nat * Descriptor)
    (m n : DMatch) :
  knn_row 2 train iq = [m; n] -> nearest_two train (snd iq) m n.
Proof.
  intros Hrow.
  assert (H := holds_fold (fst iq) (snd iq) (enumerate train) [] []).
  simpl in H. unfold knn_row in Hrow. rewrite Hrow in H.
  destruct H as ((itm & Him & ->) & (itn & Hin & ->) & Hmn & Hm & Hn).
  - rewrite enumerate_fst. apply seq_NoDup.
  - reflexivity.
  - destruct itm as [jm tm], itn as [jn tn]. simpl in *.
    apply enumerate_In in Him, Hin.
    repeat split.
    + exact Hmn.
    + exists tm. auto.
    + exists tn. auto.
    + intros j t Hj. apply (Hm (j, t)). now apply nth_error_enumerate.
    + intros j t Hj Hne. apply (Hn (j, t)); [now apply nth_error_enumerate|exact Hne].
Qed.

End NearestFacts.

Import NearestFacts.

(* ================================================================== *)
(** ** The loop of [corner_match] *)

Module LoopFacts.

Lemma getitem_Ok {A} (l : list A) (i : nat) (a : A) :
  getitem l i = Ok a <-> nth_error l i = Some a.
Proof.
  unfold getitem. destruct (nth_error l i); split; congruence.
Qed.

Lemma getitem_Raise {A} (l : list A) (i : nat) (e : exn) :
  getitem l i = Raise e -> e = IndexError /\ (length l <= i)%nat.
Proof.
  unfold getitem. destruct (nth_error l i) eqn:E; [discriminate|].
  intros [= <-]. split; [reflexivity|]. now apply nth_error_None.
Qed.

Lemma getitems_Ok {A} (l : list A) (idx : list nat) (out : list A) :
  getitems l idx = Ok out -> Forall2 (fun i a => nth_error l i = Some a) idx out.
Proof.
  revert out; induction idx as [|i idx IH]; intros out; simpl.
  - intros [= <-]. constructor.
  - destruct (getitem l i) as [a|e] eqn:Ei; simpl; [|discriminate].
    destruct (getitems l idx) as [r|e]; simpl; [|discriminate].
    intros [= <-]. constructor; [now apply getitem_Ok|now apply IH].
Qed.

Lemma getitems_total {A} (l : list A) (idx : list nat) :
  Forall (fun i => (i < length l)%nat) idx -> exists out, getitems l idx = Ok out.
Proof.
  induction 1 as [|i idx Hi _ (r & IH)]; simpl; [eauto|].
  apply nth_error_Some in Hi. unfold getitem.
  destruct (nth_error l i); [|congruence]. simpl. rewrite IH. simpl. eauto.
Qed.

Section Loop.

Variables (self : object_detection) (new_corners : list KeyPoint).

Lemma is_good_match_true (m n : DMatch) :
  is_good_match self new_corners m n = Ok true <->
  flt (distance m) (close_match_threshold self * distance n) = true /\
  exists c, nth_error new_corners (trainIdx m) = Some c /\
            fgt (response c) (corner_threshold self) = true.
Proof.
  unfold is_good_match, getitem.
  destruct (flt (distance m) _); [|split; [discriminate|intros [? _]; discriminate]].
  destruct (nth_error new_corners (trainIdx m)) as [c|]; simpl.
  - split.
    + intros [= H]. split; [reflexivity|]. exists c. auto.
    + intros (_ & c' & [= <-] & ->). reflexivity.
  - split; [discriminate|]. intros (_ & c' & H & _). discriminate.
Qed.

Lemma is_good_match_Raise (m n : DMatch) (e : exn) :
  is_good_match self new_corners m n = Raise e <->
  e = IndexError /\
  flt (distance m) (close_match_threshold self * distance n) = true /\
  (length new_corners <= trainIdx m)%nat.
Proof.
  unfold is_good_match.
  destruct (flt (distance m) _);
    [|split; [discriminate|intros (_ & ? & _); discriminate]].
  destruct (getitem new_corners (trainIdx m)) eqn:E; simpl.
  - split; [discriminate|]. intros (_ & _ & H).
    apply getitem_Ok in E. apply nth_error_None in H. congruence.
  - apply getitem_Raise in E as [-> H]. split.
    + intros [= <-]. auto.
    + intros (-> & _). reflexivity.
Qed.

Lemma is_good_match_total (m n : DMatch) :
  (trainIdx m < length new_corners)%nat ->
  exists b, is_good_match self new_corners m n = Ok b.
Proof.
  intros H. destruct (is_good_match self new_corners m n) eqn:E; [eauto|].
  apply is_good_match_Raise in E. lia.
Qed.

Lemma good_matches_loop_Ok (matches : list (list DMatch))
    (acc good : list (nat * nat)) :
  good_matches_loop self new_corners matches acc = Ok good ->
  good = acc ++ flat_map (kept self new_corners) matches.
Proof.
  revert acc; induction matches as [|row rest IH]; intros acc; simpl.
  - intros [= <-]. now rewrite app_nil_r.
  - destruct row as [|m [|n [|x r]]]; try discriminate.
    unfold kept at 1.
    destruct (is_good_match self new_corners m n) as [[|]|e]; simpl;
      try discriminate; intros H; apply IH in H; subst good.
    + now rewrite <- app_assoc.
    + reflexivity.
Qed.

Lemma good_matches_loop_Raise (matches : list (list DMatch))
    (acc : list (nat * nat)) (e : exn) :
  good_matches_loop self new_corners matches acc = Raise e ->
  (e = ValueError /\ exists row, In row matches /\ length row <> 2%nat) \/
  (e = IndexError /\
   exists m n,
     In [m; n] matches /\
     flt (distance m) (close_match_threshold self * distance n) = true /\
     (length new_corners <= trainIdx m)%nat).
Proof.
  revert acc; induction matches as [|row rest IH]; intros acc; simpl; [discriminate|].
  destruct row as [|m [|n [|x r]]].
  - intros [= <-]. left. split; [reflexivity|]. exists []. simpl. auto.
  - intros [= <-]. left. split; [reflexivity|]. exists [m]. simpl. auto.
  - destruct (is_good_match self new_corners m n) as [b|e'] eqn:E; simpl.
    + intros H.
      apply IH in H as [(-> & row & Hin & Hl)|(-> & m' & n' & Hin & Hr & Hl)].
      * left. split; [reflexivity|]. exists row. auto.
      * right. split; [reflexivity|]. exists m', n'. auto.
    + intros [= <-]. apply is_good_match_Raise in E as (-> & Hr & Hl).
      right. split; [reflexivity|]. exists m, n. auto.
  - intros [= <-]. left. split; [reflexivity|]. exists (m :: n :: x :: r).
    simpl. split; [auto|lia].
Qed.

Lemma kept_length (row : list DMatch) :
  (length (kept self new_corners row) <= 1)%nat.
Proof.
  destruct row as [|m [|n [|x r]]]; simpl; try lia.
  destruct (is_good_match self new_corners m n) as [[|]|]; simpl; lia.
Qed.

Lemma flat_map_kept_length (matches : list (list DMatch)) :
  (length (flat_map (kept self new_corners) matches) <= length matches)%nat.
Proof.
  induction matches as [|row rest IH]; simpl; [lia|].
  rewrite length_app. pose proof (kept_length row). lia.
Qed.

Lemma kept_In (row : list DMatch) (qt : nat * nat) :
  In qt (kept self new_corners row) ->
  exists m n, row = [m; n] /\ qt = (queryIdx m, trainIdx m) /\
              is_good_match self new_corners m n = Ok true.
Proof.
  destruct row as [|m [|n [|x r]]]; simpl; try tauto.
  destruct (is_good_match self new_corners m n) as [[|]|] eqn:E; simpl; try tauto.
  intros [<-|[]]. exists m, n. auto.
Qed.

End Loop.

End LoopFacts.

Import LoopFacts.

(* ================================================================== *)
(** ** [corner_match] *)

Module CornerMatchFacts.

Lemma knnMatch_Ok (query train : descriptors) (k : nat)
    (matches : list (list DMatch)) :
  BFMatcher_knnMatch query train k = Ok matches ->
  matches = map (knn_row k (rows_of train)) (enumerate (rows_of query)) /\
  (rows_of query = [] \/ train <> None).
Proof.
  unfold BFMatcher_knnMatch.
  destruct (rows_of query) as [|q qs]; [intros [= <-]; auto|].
  destruct train as [t|]; [|discriminate].
  intros [= <-]. split; [reflexivity|right; discriminate].
Qed.

Lemma knnMatch_Raise (query train : descriptors) (k : nat) (e : exn) :
  BFMatcher_knnMatch query train k = Raise e ->
  e = cv2_error /\ rows_of query <> [] /\ train = None.
Proof.
  unfold BFMatcher_knnMatch.
  destruct (rows_of query) as [|q qs]; [discriminate|].
  destruct train as [t|]; [discriminate|].
  intros [= <-]. repeat split. discriminate.
Qed.

Lemma knnMatch_total (query train : descriptors) (k : nat) :
  train <> None -> exists matches, BFMatcher_knnMatch query train k = Ok matches.
Proof.
  unfold BFMatcher_knnMatch. intros H.
  destruct (rows_of query); [eauto|]. destruct train; [eauto|now elim H].
Qed.

(** Unfolding a successful call into its three stages. *)
Lemma corner_match_Ok (self : object_detection)
    (original new : descriptors) (new_corners out : list KeyPoint) :
  corner_match self original new new_corners = Ok out ->
  let matches := map (knn_row 2 (rows_of new)) (enumerate (rows_of original)) in
  let good := flat_map (kept self new_corners) matches in
  corner_idx_of self original new new_corners = Ok (map snd good) /\
  Forall2 (fun i a => nth_error new_corners i = Some a) (map snd good) out.
Proof.
  unfold corner_match, corner_idx_of.
  destruct (BFMatcher_knnMatch original new 2) as [matches|e] eqn:Ek; simpl;
    [|discriminate].
  apply knnMatch_Ok in Ek as [-> _].
  destruct (good_matches_loop _ _ _ _) as [good|e] eqn:El; simpl; [|discriminate].
  apply good_matches_loop_Ok in El. simpl in El. subst good.
  intros H. split; [reflexivity|]. now apply getitems_Ok.
Qed.

(** One row of [original]: what the loop keeps and what it contributes. *)
Lemma kept_contribution (self : object_detection) (new : list Descriptor)
    (new_corners : list KeyPoint) (ir : nat * Descriptor) :
  (kept self new_corners (knn_row 2 new ir) = [] /\
   (contribution self new new_corners ir = [] \/
    exists m n e, knn_row 2 new ir = [m; n] /\
                  is_good_match self new_corners m n = Raise e)) \/
  exists m n c,
    knn_row 2 new ir = [m; n] /\
    kept self new_corners (knn_row 2 new ir) = [(queryIdx m, trainIdx m)] /\
    contribution self new new_corners ir = [c] /\
    nth_error new_corners (trainIdx m) = Some c /\
    flt (distance m) (close_match_threshold self * distance n) = true /\
    fgt (response c) (corner_threshold self) = true.
Proof.
  unfold kept, contribution, is_good_match, getitem.
  destruct (knn_row 2 new ir) as [|m [|n [|x r]]]; auto.
  destruct (flt (distance m) _) eqn:Hr; auto.
  destruct (nth_error new_corners (trainIdx m)) as [c|] eqn:Hc; simpl; auto.
  destruct (fgt (response c) (corner_threshold self)) eqn:Hg; auto.
  right. exists m, n, c. repeat split; assumption.
Qed.

Lemma contributions_aligned (self : object_detection) (new : list Descriptor)
    (new_corners : list KeyPoint) (irs : list (nat * Descriptor))
    (out : list KeyPoint) :
  Forall2 (fun i a => nth_error new_corners i = Some a)
    (map snd (flat_map (kept self new_corners) (map (knn_row 2 new) irs))) out ->
  (forall ir m n, In ir irs -> knn_row 2 new ir = [m; n] ->
     exists b, is_good_match self new_corners m n = Ok b) ->
  out = flat_map (contribution self new new_corners) irs.
Proof.
  revert out; induction irs as [|ir irs IH]; intros out; simpl.
  - intros H _. now inversion H.
  - intros H Hok. rewrite map_app in H.
    destruct (kept_contribution self new new_corners ir)
      as [(Hk & [Hc|(m & n & e & Hrow & He)])|(m & n & c & Hrow & Hk & Hc & Hn & _)].
    + rewrite Hk in H. rewrite Hc. simpl in *. apply IH; [exact H|].
      intros ir0 m n Hin. apply Hok. now right.
    + destruct (Hok ir m n) as [b Hb]; auto. congruence.
    + rewrite Hk in H. rewrite Hc. simpl in *.
      inversion H as [|i a idx out' Ha Hrest]; subst.
      f_equal; [congruence|]. apply IH; [exact Hrest|].
      intros ir0 m0 n0 Hin. apply Hok. now right.
Qed.

(** In a successful call no row made the test raise. *)
Lemma good_matches_loop_Ok_tests (self : object_detection)
    (new : list Descriptor) (new_corners : list KeyPoint)
    (irs : list (nat * Descriptor)) (acc good : list (nat * nat)) :
  good_matches_loop self new_corners (map (knn_row 2 new) irs) acc = Ok good ->
  forall ir m n, In ir irs -> knn_row 2 new ir = [m; n] ->
    exists b, is_good_match self new_corners m n = Ok b.
Proof.
  revert acc; induction irs as [|ir' irs IH]; intros acc Hl ir m n Hin Hrow;
    [destruct Hin|].
  simpl in Hl. destruct Hin as [->|Hin].
  - rewrite Hrow in Hl.
    destruct (is_good_match self new_corners m n) as [b|e]; [eauto|discriminate].
  - destruct (knn_row 2 new ir') as [|m' [|n' [|x r]]]; try discriminate.
    destruct (is_good_match self new_corners m' n'); simpl in Hl; [|discriminate].
    eapply IH; eauto.
Qed.

Lemma corner_match_Ok_tests (self : object_detection)
    (original new : descriptors) (new_corners out : list KeyPoint) :
  corner_match self original new new_corners = Ok out ->
  forall ir m n, In ir (enumerate (rows_of original)) ->
                 knn_row 2 (rows_of new) ir = [m; n] ->
    exists b, is_good_match self new_corners m n = Ok b.
Proof.
  unfold corner_match, corner_idx_of.
  destruct (BFMatcher_knnMatch original new 2) as [matches|e] eqn:Ek; simpl;
    [|discriminate].
  apply knnMatch_Ok in Ek as [-> _].
  destruct (good_matches_loop _ _ _ _) as [good|e] eqn:El; simpl; [|discriminate].
  intros _. eapply good_matches_loop_Ok_tests; eauto.
Qed.

Lemma corner_match_flat_map (self : object_detection)
    (original new : descriptors) (new_corners out : list KeyPoint) :
  corner_match self original new new_corners = Ok out ->
  out = flat_map (contribution self (rows_of new) new_corners)
          (enumerate (rows_of original)).
Proof.
  intros H. apply contributions_aligned.
  - now apply corner_match_Ok in H as [_ H].
  - now apply corner_match_Ok_tests with (out := out).
Qed.

Lemma contribution_In (self : object_detection) (new : list Descriptor)
    (new_corners : list KeyPoint) (ir : nat * Descriptor) (kp : KeyPoint) :
  In kp (contribution self new new_corners ir) <->
  exists m n,
    knn_row 2 new ir = [m; n] /\
    flt (distance m) (close_match_threshold self * distance n) = true /\
    nth_error new_corners (trainIdx m) = Some kp /\
    fgt (response kp) (corner_threshold self) = true.
Proof.
  unfold contribution.
  destruct (knn_row 2 new ir) as [|m [|n [|x r]]]; simpl;
    try (split; [tauto|intros (? & ? & ? & _); discriminate]).
  destruct (flt (distance m) _) eqn:Hr.
  - destruct (nth_error new_corners (trainIdx m)) as [c|] eqn:Hc.
    + destruct (fgt (response c) (corner_threshold self)) eqn:Hg; simpl.
      * split.
        -- intros [<-|[]]. exists m, n. auto.
        -- intros (m' & n' & [= <- <-] & _ & Hn & _). left. congruence.
      * split; [tauto|].
        intros (m' & n' & [= <- <-] & _ & Hn & Hg'). congruence.
    + simpl. split; [tauto|].
      intros (m' & n' & [= <- <-] & _ & Hn & _). congruence.
  - simpl. split; [tauto|].
    intros (m' & n' & [= <- <-] & Hr' & _). congruence.
Qed.

Lemma corner_match_In (self : object_detection)
    (original new : descriptors) (new_corners out : list KeyPoint)
    (kp : KeyPoint) :
  corner_match self original new new_corners = Ok out ->
  In kp out ->
  exists i r m n,
    nth_error (rows_of original) i = Some r /\
    knn_row 2 (rows_of new) (i, r) = [m; n] /\
    flt (distance m) (close_match_threshold self * distance n) = true /\
    nth_error new_corners (trainIdx m) = Some kp /\
    fgt (response kp) (corner_threshold self) = true.
Proof.
  intros H Hin. rewrite (corner_match_flat_map _ _ _ _ _ H) in Hin.
  apply in_flat_map in Hin as ([i r] & Hir & Hkp).
  apply contribution_In in Hkp as (m & n & Hrow & Hr & Hn & Hg).
  apply enumerate_In in Hir. exists i, r, m, n. auto.
Qed.

(** Every exception of [corner_match], by origin. *)
Lemma corner_match_Raise (self : object_detection)
    (original new : descriptors) (new_corners : list KeyPoint) (e : exn) :
  corner_match self original new new_corners = Raise e ->
  (e = cv2_error /\ rows_of original <> [] /\ new = None) \/
  (e = ValueError /\ rows_of original <> [] /\ new <> None /\ (rows new <= 1)%nat) \/
  (e = IndexError /\
   exists i r m n,
     nth_error (rows_of original) i = Some r /\
     knn_row 2 (rows_of new) (i, r) = [m; n] /\
     flt (distance m) (close_match_threshold self * distance n) = true /\
     (length new_corners <= trainIdx m < rows new)%nat).
Proof.
  unfold corner_match, corner_idx_of.
  destruct (BFMatcher_knnMatch original new 2) as [matches|e'] eqn:Ek; simpl.
  - apply knnMatch_Ok in Ek as [-> Hne].
    destruct (good_matches_loop _ _ _ _) as [good|e'] eqn:El; simpl.
    + apply good_matches_loop_Ok in El. simpl in El. subst good.
      intros H. exfalso. revert H.
      set (good := flat_map _ _).
      assert (Hall : Forall (fun i => (i < length new_corners)%nat) (map snd good)).
      { apply Forall_forall. intros i Hi. apply in_map_iff in Hi as ([qi ti] & <- & Hi).
        apply in_flat_map in Hi as (row & _ & Hi).
        apply kept_In in Hi as (m & n & _ & [= -> ->] & Hg).
        apply is_good_match_true in Hg as (_ & c & Hc & _).
        apply nth_error_Some. simpl. congruence. }
      destruct (getitems_total _ _ Hall) as [out ->]. discriminate.
    + intros [= <-].
      apply good_matches_loop_Raise in El
        as [(-> & row & Hin & Hl)|(-> & m & n & Hin & Hr & Hl)].
      * apply in_map_iff in Hin as (ir & <- & Hin).
        rewrite knn_row_length in Hl.
        right; left. split; [reflexivity|].
        assert (Ho : rows_of original <> []) by (intros E; rewrite E in Hin; destruct Hin).
        split; [exact Ho|].
        destruct Hne as [E|Hne]; [now elim Ho|].
        split; [exact Hne|]. unfold rows. lia.
      * apply in_map_iff in Hin as ([i r] & Hrow & Hin).
        right; right. split; [reflexivity|].
        assert (Hm : In m (knn_row 2 (rows_of new) (i, r))) by (rewrite Hrow; simpl; auto).
        apply knn_row_trainIdx in Hm. apply enumerate_In in Hin.
        exists i, r, m, n. unfold rows. repeat split; auto.
  - intros [= <-]. apply knnMatch_Raise in Ek as (-> & Hq & Hn). auto.
Qed.

(** A row that passes the ratio test and names a frame descriptor
    beyond [new_corners] makes the call end in [IndexError]. *)
Lemma corner_match_IndexError (self : object_detection)
    (original new : descriptors) (new_corners : list KeyPoint)
    (i : nat) (r : Descriptor) (m n : DMatch) :
  nth_error (rows_of original) i = Some r ->
  knn_row 2 (rows_of new) (i, r) = [m; n] ->
  flt (distance m) (close_match_threshold self * distance n) = true ->
  (length new_corners <= trainIdx m)%nat ->
  corner_match self original new new_corners = Raise IndexError.
Proof.
  intros Hi Hrow Hr Hl.
  assert (Hraise : is_good_match self new_corners m n = Raise IndexError)
    by (apply is_good_match_Raise; auto).
  assert (H2 : (2 <= rows new)%nat).
  { pose proof (knn_row_length 2 (rows_of new) (i, r)) as L. rewrite Hrow in L.
    change (length [m; n]) with 2%nat in L. unfold rows. lia. }
  destruct (corner_match self original new new_corners) as [out|e] eqn:E.
  - destruct (corner_match_Ok_tests _ _ _ _ _ E (i, r) m n) as [b Hb];
      [now apply nth_error_enumerate|exact Hrow|congruence].
  - apply corner_match_Raise in E
      as [(_ & _ & ->)|[(_ & _ & _ & H1)|(-> & _)]];
      [unfold rows in H2; simpl in H2; lia|lia|reflexivity].
Qed.

(** The call returns whenever the frame side has two descriptors or
    more and [new_corners] is at least as long. *)
Lemma corner_match_total (self : object_detection)
    (original new : descriptors) (new_corners : list KeyPoint) :
  (2 <= rows new)%nat -> (rows new <= length new_corners)%nat ->
  exists out, corner_match self original new new_corners = Ok out.
Proof.
  intros H2 Hal.
  destruct (corner_match self original new new_corners) as [out|e] eqn:E; [eauto|].
  apply corner_match_Raise in E
    as [(_ & _ & ->)|[(_ & _ & _ & H1)|(_ & i & r & m & n & _ & _ & _ & H)]];
    [unfold rows in H2; simpl in H2; lia|lia|lia].
Qed.

End CornerMatchFacts.

Import CornerMatchFacts.

(* ================================================================== *)
(** ** Claims about the match filter *)

Import Scenario.

(** The stand-in detector gives one descriptor row per keypoint. *)
Lemma synthetic_one_row_each : SIFT_compute_one_row_each (H := Synthetic.vision).
Proof.
  intros image_bw corners. simpl. unfold rows.
  destruct corners; simpl; [reflexivity|]. now rewrite length_map.
Qed.

(** The distances are binary32 ones.  [4096^2 + 1] is no binary32
    number, so the two frame descriptors of the first call are equally
    far from the reference descriptor and the ratio test fails; in the
    second call, with the ratio slider at 75, the binary32 square roots
    of 27 and 48 pass the test that their exact values would tie. *)
Example distances_are_binary32 :
  normL2 [0; 0]%float [4096; 1]%float = 4096%float /\
  corner_match init (Some [[0; 0]]%float)
    (Some [[4096; 1]; [4096; 0]]%float) [kA; kB] = Ok [] /\
  corner_match (change_match_threshold init 75) (Some [[0; 0; 0]]%float)
    (Some [[3; 3; 3]; [4; 4; 4]]%float) [kA; kB] = Ok [kA].
Proof. repeat split; vm_compute; reflexivity. Qed.



(** C1 (as amended).  Whenever [corner_match] returns, its result is, in
    the order of the reference descriptors [original], the keypoint
    [new_corners[m.trainIdx]] of every reference descriptor whose
    nearest and second-nearest frame descriptors [m], [n] satisfy
    [m.distance < close_match_threshold * n.distance] and whose keypoint
    has [response > corner_threshold]; a keypoint is in the result if
    and only if some reference descriptor selects it in this way. *)
Theorem corner_match_by_reference (self : object_detection)
    (original new : descriptors) (new_corners out : list KeyPoint) :
  corner_match self original new new_corners = Ok out ->
  out = flat_map (contribution self (rows_of new) new_corners)
          (enumerate (rows_of original)) /\
  forall kp, In kp out <->
    exists i r m n,
      nth_error (rows_of original) i = Some r /\
      knn_row 2 (rows_of new) (i, r) = [m; n] /\
      nearest_two (rows_of new) r m n /\
      flt (distance m) (close_match_threshold self * distance n) = true /\
      nth_error new_corners (trainIdx m) = Some kp /\
      fgt (response kp) (corner_threshold self) = true.
Proof.
  intros H. pose proof (corner_match_flat_map _ _ _ _ _ H) as Hout.
  split; [exact Hout|]. intros kp. rewrite Hout, in_flat_map. split.
  - intros ([i r] & Hin & Hkp).
    apply contribution_In in Hkp as (m & n & Hrow & Hr & Hn & Hg).
    exists i, r, m, n.
    split; [now apply enumerate_In|]. split; [exact Hrow|].
    split; [exact (knn_row_nearest_two (rows_of new) (i, r) m n Hrow)|].
    auto.
  - intros (i & r & m & n & Hi & Hrow & _ & Hr & Hn & Hg).
    exists (i, r). split; [now apply nth_error_enumerate|].
    apply contribution_In. exists m, n. auto.
Qed.

Lemma corner_match_by_reference_witness :
  exists out,
    corner_match init (Some reference3) (Synthetic.describe frame_AB) frame_AB
    = Ok out /\
    out = flat_map
            (contribution init (map Synthetic.descriptor_of frame_AB) frame_AB)
            (enumerate reference3).
Proof.
  exists [kA; kA; kA].
  assert (H : corner_match init (Some reference3)
                (Synthetic.describe frame_AB) frame_AB
              = Ok [kA; kA; kA]) by (vm_compute; reflexivity).
  split; [exact H|].
  exact (proj1 (corner_match_by_reference _ _ _ _ _ H)).
Defined.

(** C1 (as stated) fails: on three reference descriptors that are all
    nearest to [kA], the specification's filter keeps [kA] and [kB],
    each once, while [corner_match] returns [kA] three times and never
    [kB], although [kB]'s own descriptor passes both tests against the
    reference set. *)
Lemma corner_match_is_not_the_query_side_filter :
  corner_match init (Some reference3) (Synthetic.describe frame_AB) frame_AB
  = Ok [kA; kA; kA] /\
  Spec.filter_matches reference3 (map Synthetic.descriptor_of frame_AB) frame_AB
    (corner_threshold init) (close_match_threshold init)
  = [kA; kB] /\
  Spec.accepts (corner_threshold init) (close_match_threshold init)
    reference3 (Synthetic.descriptor_of kB) kB = true /\
  ~ In kB [kA; kA; kA].
Proof.
  repeat split; try (vm_compute; reflexivity).
  intros [H|[H|[H|[]]]];
    apply (f_equal (fun k => PrimFloat.ltb (fst (pt k)) 5)) in H;
    vm_compute in H; discriminate.
Qed.




(** C4 (as amended).  Without a reference descriptor ([original] is
    [None] or an array of no row) [corner_match] returns the empty list
    and raises nothing, whatever the other arguments are.  With
    reference descriptors and no frame descriptor it raises: the
    matcher's error when [new] is [None], and [ValueError], from
    unpacking an empty row of matches, when [new] is an array of no
    row. *)
Theorem corner_match_empty_sides :
  (forall self new new_corners,
     corner_match self None new new_corners = Ok [] /\
     corner_match self (Some []) new new_corners = Ok []) /\
  (forall self r original new_corners,
     corner_match self (Some (r :: original)) None new_corners
     = Raise cv2_error /\
     corner_match self (Some (r :: original)) (Some []) new_corners
     = Raise ValueError).
Proof.
  split.
  - intros self new new_corners. split; reflexivity.
  - intros self r original new_corners. split; reflexivity.
Qed.

(** C4 (as stated) fails: one reference descriptor against a frame
    without descriptors raises instead of returning the empty list,
    both for [None] and for an array of no row. *)
Lemma corner_match_empty_frame_raises :
  corner_match init (Some reference_weak) None [] = Raise cv2_error /\
  corner_match init (Some reference_weak) (Some []) [] = Raise ValueError /\
  corner_match init (Some reference_weak) None [] <> Ok [] /\
  corner_match init (Some reference_weak) (Some []) [] <> Ok [].
Proof.
  repeat split; try reflexivity; discriminate.
Qed.

(** C8.  No keypoint with [response <= corner_threshold] is in a result
    of [corner_match]: every keypoint of the result has
    [response > corner_threshold]. *)
Theorem corner_match_above_threshold (self : object_detection)
    (original new : descriptors) (new_corners out : list KeyPoint) :
  corner_match self original new new_corners = Ok out ->
  forall kp, In kp out ->
    fgt (response kp) (corner_threshold self) = true /\
    fle (response kp) (corner_threshold self) = false.
Proof.
  intros H kp Hin.
  destruct (corner_match_In _ _ _ _ _ kp H Hin)
    as (i & r & m & n & _ & _ & _ & _ & Hg).
  split; [exact Hg|now apply fgt_not_fle].
Qed.

Lemma corner_match_above_threshold_witness :
  fgt (response kA) (corner_threshold init) = true /\
  fle (response kA) (corner_threshold init) = false.
Proof.
  apply (corner_match_above_threshold init (Some reference3)
           (Synthetic.describe frame_AB) frame_AB [kA; kA; kA]).
  - vm_compute. reflexivity.
  - simpl. auto.
Defined.

(* ================================================================== *)
(** ** Claims about detection and description *)

Lemma filter_filter_weaker {A} (f g : A -> bool) (l : list A) :
  (forall x, f x = true -> g x = true) ->
  filter f (filter g l) = filter f l.
Proof.
  intros Hfg. induction l as [|a l IH]; simpl; [reflexivity|].
  destruct (g a) eqn:Hg; simpl.
  - now rewrite IH.
  - destruct (f a) eqn:Hf; [|exact IH].
    rewrite (Hfg a Hf) in Hg. discriminate.
Qed.

Lemma filter_no_longer {A} (f : A -> bool) (l : list A) :
  (length (filter f l) <= length l)%nat.
Proof.
  induction l as [|a l IH]; simpl; [lia|]. destruct (f a); simpl; lia.
Qed.

(** With one descriptor row per keypoint, [find_descriptors] has as
    many rows as [find_corners] has corners at the same threshold. *)
Lemma find_descriptors_rows `{V : Vision}
    (self : object_detection) (image : Image) :
  SIFT_compute_one_row_each ->
  rows (find_descriptors self image) = length (find_corners self image).
Proof.
  intros Hrows. unfold find_descriptors. cbv zeta. apply Hrows.
Qed.

(** C5 (the code does otherwise).  [find_descriptors] hands
    [SIFT.compute] the corners [find_corners] returns at the threshold
    in force; when there is none, its result is what [SIFT.compute]
    answers for no keypoint, which with the Python binding is [None]
    and not a sequence of length zero. *)
Theorem find_descriptors_without_corners `{V : Vision}
    (self : object_detection) (image : Image) :
  (forall image_bw, snd (SIFT_compute image_bw []) = None) ->
  find_corners self image = [] ->
  find_descriptors self image = None.
Proof.
  intros Hnone Hno. unfold find_descriptors. cbv zeta. rewrite Hno. apply Hnone.
Qed.

Lemma find_descriptors_without_corners_witness :
  find_descriptors slider50 frame_faint = None.
Proof.
  apply (find_descriptors_without_corners (V := Synthetic.vision)).
  - intros image_bw. reflexivity.
  - vm_compute. reflexivity.
Defined.

(** C7.  For thresholds [t1 <= t2] and a fixed image, the keypoints
    found at [t2] are those found at [t1] filtered once more by
    [response > t2]; in particular there are no more of them. *)
Theorem find_corners_monotone `{V : Vision}
    (self1 self2 : object_detection) (image : Image) :
  fle (corner_threshold self1) (corner_threshold self2) = true ->
  find_corners self2 image
  = filter (fun corner => fgt (response corner) (corner_threshold self2))
      (find_corners self1 image) /\
  (length (find_corners self2 image) <= length (find_corners self1 image))%nat.
Proof.
  intros Hle.
  assert (E : find_corners self2 image
              = filter (fun corner => fgt (response corner) (corner_threshold self2))
                  (find_corners self1 image)).
  { unfold find_corners. cbv zeta. symmetry. apply filter_filter_weaker.
    intros corner Hg. exact (fgt_fle_trans _ _ _ Hle Hg). }
  split; [exact E|]. rewrite E. apply filter_no_longer.
Qed.

Lemma find_corners_monotone_witness :
  find_corners slider50 frame_weak
  = filter (fun corner => fgt (response corner) (corner_threshold slider50))
      (find_corners slider0 frame_weak) /\
  (length (find_corners slider50 frame_weak)
   <= length (find_corners slider0 frame_weak))%nat.
Proof.
  apply (find_corners_monotone (V := Synthetic.vision) slider0 slider50 frame_weak).
  vm_compute. reflexivity.
Defined.

(** The count really drops in the scenario: three corners at threshold
    0.0, two at 0.05. *)
Example find_corners_slider :
  find_corners slider0 frame_weak = [k1; k2; k3] /\
  find_corners slider50 frame_weak = [k1; k2].
Proof. split; vm_compute; reflexivity. Qed.

(* ================================================================== *)
(** ** Claims about the cluster engine *)

Lemma find_four_clusters_cases `{K : Clustering} (corners : list KeyPoint) :
  match KMeans_fit (combine (find_x corners) (find_y corners)) with
  | Ok centres => find_four_clusters corners = Ok (Some centres)
  | Raise _ => find_four_clusters corners = Ok None
  end.
Proof.
  unfold find_four_clusters. cbv zeta.
  now destruct (KMeans_fit (combine (find_x corners) (find_y corners))).
Qed.

(** C6 (the code does otherwise).  Six corners at one and the same
    position are a single distinct point; a k-means fit accepts them
    and answers with that point four times, so [find_four_clusters]
    returns four centres and not [None]. *)
Theorem find_four_clusters_coincident_corners :
  (forall p, In p (combine (find_x (repeat kA 6)) (find_y (repeat kA 6))) ->
             p = pt kA) /\
  find_four_clusters (K := stand_in_fit) (repeat kA 6)
  = Ok (Some (repeat (pt kA) 4)) /\
  find_four_clusters (K := stand_in_fit) (repeat kA 6) <> Ok None.
Proof.
  split; [|split; [vm_compute; reflexivity|vm_compute; discriminate]].
  simpl. intros p H. repeat (destruct H as [<-|H]; [reflexivity|]). destruct H.
Qed.

(* ================================================================== *)
(** ** Claims about the per-frame loop *)

(** C2 (the loop does otherwise).  When a frame has more than one corner
    but at most five good corners, the iteration assigns nothing to
    [cluster_coords]: the centroids it draws are the ones an earlier
    frame left in that name, next to this frame's good corners; and if
    no frame has assigned the name yet, the iteration ends in a
    [NameError]. *)
Theorem iteration_keeps_cluster_coords `{V : Vision} `{K : Clustering}
    (self : object_detection) (train_descriptors : descriptors)
    (vars : loop_vars) (frame : Image) (good : list KeyPoint) :
  (1 < length (find_corners self frame))%nat ->
  corner_match self train_descriptors
    (find_descriptors self frame) (find_corners self frame) = Ok good ->
  (length good <= 5)%nat ->
  (forall previous,
     cluster_coords vars = Some (Some previous) ->
     iteration self train_descriptors vars (Some frame)
     = Ok ({| good_corners := Some good;
              cluster_coords := Some (Some previous) |},
           Some {| centroids_drawn := previous; corners_drawn := good |})) /\
  (cluster_coords vars = None ->
   iteration self train_descriptors vars (Some frame) = Raise NameError).
Proof.
  intros H1 Hm H5. unfold iteration. cbv zeta.
  apply Nat.ltb_lt in H1. rewrite H1, Hm. simpl.
  assert (E : (5 <? length good)%nat = false) by (apply Nat.ltb_ge; lia).
  rewrite E. simpl. split.
  - intros previous ->. reflexivity.
  - intros ->. reflexivity.
Qed.

Lemma iteration_keeps_cluster_coords_witness :
  iteration (K := stand_in_fit) init (Some reference6) after_frame_AB
    (Some frame_CD)
  = Ok ({| good_corners := Some [];
           cluster_coords := Some (Some (repeat (pt kA) 4)) |},
        Some {| centroids_drawn := repeat (pt kA) 4; corners_drawn := [] |}).
Proof.
  assert (H1 : (1 < length (find_corners init frame_CD))%nat)
    by (vm_compute; lia).
  assert (Hm : corner_match init (Some reference6)
                 (find_descriptors init frame_CD) (find_corners init frame_CD)
               = Ok []) by (vm_compute; reflexivity).
  assert (H5 : (length (@nil KeyPoint) <= 5)%nat) by (simpl; lia).
  exact (proj1 (iteration_keeps_cluster_coords (K := stand_in_fit)
                  init (Some reference6) after_frame_AB frame_CD [] H1 Hm H5)
           (repeat (pt kA) 4) eq_refl).
Defined.

(** The whole run on the two frames: the second overlay repeats the
    centroids of the first although none of its own corners matched. *)
Example run_two_frames :
  find_descriptors init train_image6 = Some reference6 /\
  main (K := stand_in_fit) train_image6
    [(init, Some frame_AB); (init, Some frame_CD)]
  = Ok [Some {| centroids_drawn := repeat (pt kA) 4;
                corners_drawn := repeat kA 6 |};
        Some {| centroids_drawn := repeat (pt kA) 4;
                corners_drawn := [] |}].
Proof. split; vm_compute; reflexivity. Qed.

(** The same second frame as the first one of a run stops the program. *)
Example run_first_frame_unbound :
  main (K := stand_in_fit) train_image6 [(init, Some frame_CD)]
  = Raise NameError.
Proof. vm_compute. reflexivity. Qed.

(** C9 (as amended).  [corner_match] indexes [new_corners] by
    [m.trainIdx], and only for the rows that pass the ratio test.  It
    raises [IndexError] exactly when some row of the matcher's answer
    passes the ratio test and names a frame descriptor at or beyond
    [len(new_corners)]; so it does not when the first match of every
    row names a frame descriptor below [len(new_corners)], nor when
    [new_corners] is at least as long as the descriptor array, and in
    particular not when the descriptors and the corners were computed
    at one and the same threshold.  [find_descriptors] detects the
    corners again at the threshold in force when it runs: with the
    slider moved from 50 to 0 between the caller's [find_corners] and
    its [find_descriptors], the frame has three descriptors for two
    corners, and [corner_match] raises [IndexError]. *)
Theorem corner_match_needs_aligned_corners :
  (forall self original new new_corners,
     corner_match self original new new_corners = Raise IndexError <->
     exists i r m n,
       nth_error (rows_of original) i = Some r /\
       knn_row 2 (rows_of new) (i, r) = [m; n] /\
       flt (distance m) (close_match_threshold self * distance n) = true /\
       (length new_corners <= trainIdx m < rows new)%nat) /\
  (forall self original new new_corners,
     (forall i r m n,
        nth_error (rows_of original) i = Some r ->
        knn_row 2 (rows_of new) (i, r) = [m; n] ->
        (trainIdx m < length new_corners)%nat) ->
     corner_match self original new new_corners <> Raise IndexError) /\
  (forall self original new new_corners,
     (rows new <= length new_corners)%nat ->
     corner_match self original new new_corners <> Raise IndexError) /\
  (forall (V : Vision),
     SIFT_compute_one_row_each ->
     forall self original image,
       corner_match self original
         (find_descriptors self image) (find_corners self image)
       <> Raise IndexError) /\
  (find_corners slider50 frame_weak = [k1; k2] /\
   find_descriptors slider0 frame_weak
   = Some (map Synthetic.descriptor_of [k1; k2; k3]) /\
   corner_match slider0 (Some reference_weak)
     (find_descriptors slider0 frame_weak) (find_corners slider50 frame_weak)
   = Raise IndexError).
Proof.
  assert (Hrow : forall self original new new_corners,
     corner_match self original new new_corners = Raise IndexError ->
     exists i r m n,
       nth_error (rows_of original) i = Some r /\
       knn_row 2 (rows_of new) (i, r) = [m; n] /\
       flt (distance m) (close_match_threshold self * distance n) = true /\
       (length new_corners <= trainIdx m < rows new)%nat).
  { intros self original new new_corners H.
    apply corner_match_Raise in H as [(H & _)|[(H & _)|(_ & H)]];
      [discriminate|discriminate|exact H]. }
  assert (Hlen : forall self original new new_corners,
     (rows new <= length new_corners)%nat ->
     corner_match self original new new_corners <> Raise IndexError).
  { intros self original new new_corners Hle H.
    apply Hrow in H as (i & r & m & n & _ & _ & _ & Hm). lia. }
  split; [|split; [|split; [exact Hlen|split]]].
  - intros self original new new_corners. split; [apply Hrow|].
    intros (i & r & m & n & Hi & Hr & Hlt & Hl & _).
    now apply (corner_match_IndexError self original new new_corners i r m n).
  - intros self original new new_corners Hall H.
    apply Hrow in H as (i & r & m & n & Hi & Hr & _ & Hm & _).
    specialize (Hall i r m n Hi Hr). lia.
  - intros V Hrows self original image. apply Hlen.
    rewrite (find_descriptors_rows self image Hrows). apply Nat.le_refl.
  - repeat split; vm_compute; reflexivity.
Qed.

(** C9 (as stated) fails in its "only": with the ratio slider at 0 the
    one reference descriptor is matched to the second frame descriptor,
    for which [new_corners], of one corner, has no entry, and yet
    nothing is indexed and the call returns. *)
Lemma corner_match_returns_without_alignment :
  corner_match (change_match_threshold init 0) (Some reference_weak)
    (Synthetic.describe frame_AB) [kA]
  = Ok [] /\
  exists m n,
    BFMatcher_knnMatch (Some reference_weak) (Synthetic.describe frame_AB) 2
    = Ok [[m; n]] /\
    trainIdx m = 1%nat /\
    (length [kA] <= trainIdx m)%nat.
Proof.
  split; [vm_compute; reflexivity|].
  eexists _, _. split; [vm_compute; reflexivity|]. split; [reflexivity|].
  simpl. lia.
Qed.

(* ================================================================== *)
(** ** Claims about the slider callbacks *)

(** On the range of the trackbars the conversion is the primitive one
    of 63-bit integers. *)
Lemma float_of_int_trackbar (raw : Z) :
  (0 <= raw <= 100)%Z -> float_of_int raw = of_uint63 (Uint63.of_Z raw).
Proof.
  intros H.
  assert (T : forallb
                (fun n => PrimFloat.Leibniz.eqb
                            (float_of_int (Z.of_nat n))
                            (of_uint63 (Uint63.of_Z (Z.of_nat n))))
                (seq 0 101) = true) by (vm_compute; reflexivity).
  rewrite forallb_forall in T. specialize (T (Z.to_nat raw)).
  rewrite Z2Nat.id in T by lia.
  apply FloatAxioms.Leibniz.eqb_spec, T, in_seq. lia.
Qed.

(** The decimal literal 0.05 below denotes the double nearest to it, as
    it does in Python. *)
#[local] Set Warnings "-inexact-float".

(** C10.  [change_corner_threshold] stores [value / 1000.0] in
    [corner_threshold] and [change_match_threshold] stores
    [value / 100.0] in [close_match_threshold], for every [value], each
    leaving the other field as it was; the slider at 50 gives the
    corner threshold 0.05 and the slider at 0 gives 0.0. *)
Theorem slider_callbacks (self : object_detection) (raw : Z) :
  corner_threshold (change_corner_threshold self raw)
  = (float_of_int raw / 1000)%float /\
  close_match_threshold (change_corner_threshold self raw)
  = close_match_threshold self /\
  close_match_threshold (change_match_threshold self raw)
  = (float_of_int raw / 100)%float /\
  corner_threshold (change_match_threshold self raw)
  = corner_threshold self /\
  corner_threshold (change_corner_threshold self 50) = 0.05%float /\
  corner_threshold
    (change_corner_threshold (change_corner_threshold self 50) 0)
  = 0%float.
Proof.
  repeat split; vm_compute; reflexivity.
Qed.

(* ================================================================== *)
(** * Further properties of the methods *)

(** ** More facts used below *)

Module MoreFacts.

(** A distance of the matcher is never below a multiple of zero: the
    binary32 square root is not negative, and its double is not. *)
Definition not_negative (x : spec_float) : Prop :=
  match x with
  | S754_infinity true | S754_finite true _ _ => False
  | _ => True
  end.

Lemma binary_round_aux_not_negative (p e m ex : Z) (l : location) :
  not_negative (binary_round_aux p e false m ex l).
Proof.
  unfold binary_round_aux.
  destruct (shr_fexp p e m ex l) as [mrs' e'].
  destruct (shr_fexp p e _ e' loc_Exact) as [mrs'' e''].
  destruct (shr_m mrs''); simpl; auto. destruct (Z.leb e'' _); simpl; auto.
Qed.

Lemma binary_round_not_negative (p e : Z) (m : positive) (ex : Z) :
  not_negative (binary_round p e false m ex).
Proof.
  unfold binary_round. destruct (shl_align m ex _) as [mz ez].
  apply binary_round_aux_not_negative.
Qed.

Lemma SFsqrt_not_negative (p e : Z) (x : spec_float) :
  not_negative (SFsqrt p e x).
Proof.
  unfold SFsqrt. destruct x as [s|[|]| |[|] m ex]; simpl; auto.
  destruct (SFsqrt_core_binary p e (Z.pos m) ex) as [[mz ez] lz].
  apply binary_round_aux_not_negative.
Qed.

Lemma SF2Prim_not_negative (x : spec_float) :
  not_negative x -> not_negative (Prim2SF (SF2Prim x)).
Proof.
  destruct x as [[|]|[|]| |[|] m ex]; simpl; intros H; try destruct H;
    try (vm_compute; exact I).
  rewrite Z_ldexp_spec, of_uint63_spec.
  match goal with
  | |- context [Uint63Axioms.to_Z ?n] =>
      pose proof (Uint63.to_Z_bounded n) as B;
      destruct (Uint63Axioms.to_Z n) as [|z|z]
  end; simpl.
  - exact I.
  - pose proof (binary_round_not_negative prec emax z 0) as N.
    destruct (binary_round prec emax false z 0) as [s|s| |s mx e']; simpl in *; auto.
    destruct s; [destruct N|]. apply binary_round_not_negative.
  - lia.
Qed.

Lemma normL2_not_below_zero_times (a b : Descriptor) (y : float) :
  flt (normL2 a b) (0 * y) = false.
Proof.
  unfold flt. rewrite ltb_spec, mul_spec.
  change (Prim2SF 0) with (S754_zero false).
  pose proof (SF2Prim_not_negative _
                (SFsqrt_not_negative prec32 emax32 (normL2Sqr a b))) as N.
  fold (normL2 a b) in N.
  assert (Hm : SF64mul (S754_zero false) (Prim2SF y) = S754_nan \/
               exists s, SF64mul (S754_zero false) (Prim2SF y) = S754_zero s).
  { unfold SF64mul, SFmul. destruct (Prim2SF y); eauto. }
  destruct (Prim2SF (normL2 a b)) as [s|[|]| |[|] m e]; try destruct N;
    destruct Hm as [->|[s' ->]]; reflexivity.
Qed.

Lemma combine_find_x_find_y (corners : list KeyPoint) :
  combine (find_x corners) (find_y corners) = map pt corners.
Proof.
  induction corners as [|c corners IH]; simpl; [reflexivity|].
  rewrite IH. now destruct (pt c).
Qed.

(** The two exceptions of the matcher stage, from their causes. *)
Lemma corner_match_no_frame_array (self : object_detection)
    (original : descriptors) (new_corners : list KeyPoint) :
  rows_of original <> [] ->
  corner_match self original None new_corners = Raise cv2_error.
Proof.
  intros H. unfold corner_match, corner_idx_of, BFMatcher_knnMatch.
  destruct (rows_of original); [now elim H|reflexivity].
Qed.

Lemma corner_match_short_frame_array (self : object_detection)
    (original : descriptors) (frame_rows : list Descriptor)
    (new_corners : list KeyPoint) :
  rows_of original <> [] -> (length frame_rows <= 1)%nat ->
  corner_match self original (Some frame_rows) new_corners = Raise ValueError.
Proof.
  intros H L. unfold corner_match, corner_idx_of, BFMatcher_knnMatch.
  destruct (rows_of original) as [|r more]; [now elim H|].
  destruct frame_rows as [|t [|t' more']]; [reflexivity|reflexivity|].
  simpl in L. lia.
Qed.

Lemma flat_map_filter {A B} (f : A -> list B) (p : B -> bool) (l : list A) :
  filter p (flat_map f l) = flat_map (fun a => filter p (f a)) l.
Proof.
  induction l as [|a l IH]; simpl; [reflexivity|].
  now rewrite filter_app, IH.
Qed.

Lemma contribution_raised_threshold (self1 self2 : object_detection)
    (new : list Descriptor) (new_corners : list KeyPoint)
    (ir : nat * Descriptor) :
  close_match_threshold self1 = close_match_threshold self2 ->
  fle (corner_threshold self1) (corner_threshold self2) = true ->
  contribution self2 new new_corners ir
  = filter (fun c => fgt (response c) (corner_threshold self2))
      (contribution self1 new new_corners ir).
Proof.
  intros Hr Hle. unfold contribution. rewrite Hr.
  destruct (knn_row 2 new ir) as [|m [|n [|x r]]]; try reflexivity.
  destruct (flt (distance m) _); [|reflexivity].
  destruct (nth_error new_corners (trainIdx m)) as [c|]; [|reflexivity].
  destruct (fgt (response c) (corner_threshold self2)) eqn:H2.
  - rewrite (fgt_fle_trans _ _ _ Hle H2). simpl. now rewrite H2.
  - destruct (fgt (response c) (corner_threshold self1)); simpl;
      [now rewrite H2|reflexivity].
Qed.

(** Whether and how [corner_match] raises does not depend on
    [corner_threshold]. *)
Lemma corner_match_Raise_any_threshold (self1 self2 : object_detection)
    (original new : descriptors) (new_corners : list KeyPoint) (e : exn) :
  close_match_threshold self1 = close_match_threshold self2 ->
  corner_match self1 original new new_corners = Raise e ->
  corner_match self2 original new new_corners = Raise e.
Proof.
  intros Hr H. apply corner_match_Raise in H
    as [(-> & Ho & ->)|[(-> & Ho & Hn & Hl)
       |(-> & i & r & m & n & Hi & Hrow & Hlt & Hb & _)]].
  - now apply corner_match_no_frame_array.
  - destruct new as [frame_rows|]; [|now elim Hn].
    now apply corner_match_short_frame_array.
  - rewrite Hr in Hlt. exact (corner_match_IndexError _ _ _ _ i r m n Hi Hrow Hlt Hb).
Qed.

Lemma corner_match_Ok_any_threshold (self1 self2 : object_detection)
    (original new : descriptors) (new_corners out1 : list KeyPoint) :
  close_match_threshold self1 = close_match_threshold self2 ->
  corner_match self1 original new new_corners = Ok out1 ->
  exists out2, corner_match self2 original new new_corners = Ok out2.
Proof.
  intros Hr H1.
  destruct (corner_match self2 original new new_corners) as [out2|e] eqn:H2;
    [eauto|].
  rewrite (corner_match_Raise_any_threshold self2 self1 _ _ _ e (eq_sym Hr) H2)
    in H1. discriminate.
Qed.

End MoreFacts.

Import MoreFacts.

(** ** The points handed to the clustering *)

(** X1.  [find_x] and [find_y] return one coordinate per corner, in the
    order of the corners, and the array [find_four_clusters] builds from
    them is the list of the corners' positions: the result depends on
    the positions only, not on the responses. *)
Theorem find_four_clusters_positions `{K : Clustering} (corners : list KeyPoint) :
  length (find_x corners) = length corners /\
  length (find_y corners) = length corners /\
  (forall i, nth_error (find_x corners) i
             = option_map (fun c => fst (pt c)) (nth_error corners i)) /\
  (forall i, nth_error (find_y corners) i
             = option_map (fun c => snd (pt c)) (nth_error corners i)) /\
  find_four_clusters corners
  = match KMeans_fit (map pt corners) with
    | Ok centres => Ok (Some centres)
    | Raise _ => Ok None
    end /\
  (forall corners',
     map pt corners' = map pt corners ->
     find_four_clusters corners' = find_four_clusters corners).
Proof.
  assert (E : forall cs, find_four_clusters cs
                         = match KMeans_fit (map pt cs) with
                           | Ok centres => Ok (Some centres)
                           | Raise _ => Ok None
                           end).
  { intros cs. unfold find_four_clusters. cbv zeta.
    rewrite combine_find_x_find_y. now destruct (KMeans_fit (map pt cs)). }
  unfold find_x, find_y. rewrite !length_map.
  repeat split; try (intros i; apply nth_error_map).
  - apply E.
  - intros corners' H. now rewrite !E, H.
Qed.

(** ** When [corner_match] raises and when it returns *)

(** X2.  [corner_match] raises the matcher's error exactly when there
    are reference descriptors and [new] is [None]; it raises
    [ValueError] (from unpacking a row of fewer than two matches)
    exactly when there are reference descriptors and [new] is an array
    of no row or of a single row; it never raises a [NameError]; and
    with two frame descriptors or more and at least as many corners in
    [new_corners] it returns. *)
Theorem corner_match_exceptions (self : object_detection)
    (original new : descriptors) (new_corners : list KeyPoint) :
  (corner_match self original new new_corners = Raise cv2_error
   <-> rows_of original <> [] /\ new = None) /\
  (corner_match self original new new_corners = Raise ValueError
   <-> rows_of original <> [] /\ new <> None /\ (rows new <= 1)%nat) /\
  corner_match self original new new_corners <> Raise NameError /\
  ((2 <= rows new <= length new_corners)%nat ->
   exists out, corner_match self original new new_corners = Ok out).
Proof.
  split; [split|split; [split|split]].
  - intros H. apply corner_match_Raise in H
      as [(_ & H)|[(H & _)|(H & _)]]; [tauto|discriminate|discriminate].
  - intros [Ho ->]. now apply corner_match_no_frame_array.
  - intros H. apply corner_match_Raise in H
      as [(H & _)|[(_ & H)|(H & _)]]; [discriminate|exact H|discriminate].
  - intros (Ho & Hn & Hl). destruct new as [frame_rows|]; [|now elim Hn].
    now apply corner_match_short_frame_array.
  - intros H. apply corner_match_Raise in H
      as [(H & _)|[(H & _)|(H & _)]]; discriminate.
  - intros [H2 Hl]. now apply corner_match_total.
Qed.

(** X3.  Raising [corner_threshold] while [close_match_threshold] stays
    as it is filters the result of [corner_match]: on the same
    arguments, if the call returns at the lower threshold then it
    returns at the higher one, with the corners of the first result
    whose response exceeds the higher threshold, in the same order. *)
Theorem corner_match_raised_threshold (self1 self2 : object_detection)
    (original new : descriptors) (new_corners out1 : list KeyPoint) :
  close_match_threshold self1 = close_match_threshold self2 ->
  fle (corner_threshold self1) (corner_threshold self2) = true ->
  corner_match self1 original new new_corners = Ok out1 ->
  corner_match self2 original new new_corners
  = Ok (filter (fun c => fgt (response c) (corner_threshold self2)) out1).
Proof.
  intros Hr Hle H1.
  destruct (corner_match_Ok_any_threshold self1 self2 _ _ _ _ Hr H1)
    as [out2 H2].
  rewrite H2. f_equal.
  rewrite (corner_match_flat_map _ _ _ _ _ H1),
    (corner_match_flat_map _ _ _ _ _ H2), flat_map_filter.
  apply flat_map_ext. intros ir.
  now apply contribution_raised_threshold.
Qed.

Lemma corner_match_raised_threshold_witness :
  corner_match slider50 (Some reference_weak)
    (Synthetic.describe frame_weak) frame_weak
  = Ok (filter (fun c => fgt (response c) (corner_threshold slider50)) [k3]).
Proof.
  apply (corner_match_raised_threshold slider0 slider50).
  - reflexivity.
  - vm_compute. reflexivity.
  - vm_compute. reflexivity.
Defined.

(** X4.  With [close_match_threshold] at zero no match passes the ratio
    test: whenever the matcher stage itself succeeds (no reference
    descriptor, or two frame descriptors or more), [corner_match]
    returns the empty list, whatever [new_corners] is. *)
Theorem corner_match_ratio_zero (self : object_detection)
    (original new : descriptors) (new_corners : list KeyPoint) :
  close_match_threshold self = 0%float ->
  rows_of original = [] \/ (2 <= rows new)%nat ->
  corner_match self original new new_corners = Ok [].
Proof.
  intros Hz Hshape.
  assert (Hfail : forall i r m n,
            knn_row 2 (rows_of new) (i, r) = [m; n] ->
            flt (distance m) (close_match_threshold self * distance n) = false).
  { intros i r m n Hrow.
    assert (Hm : In m (knn_row 2 (rows_of new) (i, r)))
      by (rewrite Hrow; simpl; auto).
    apply knn_row_entry in Hm as (_ & t & _ & ->).
    rewrite Hz. apply normL2_not_below_zero_times. }
  destruct (corner_match self original new new_corners) as [[|kp out]|e] eqn:E.
  - reflexivity.
  - exfalso.
    destruct (corner_match_In _ _ _ _ _ kp E (or_introl eq_refl))
      as (i & r & m & n & _ & Hrow & Hlt & _).
    rewrite (Hfail i r m n Hrow) in Hlt. discriminate.
  - exfalso. apply corner_match_Raise in E
      as [(_ & Ho & ->)|[(_ & Ho & _ & Hl)
         |(_ & i & r & m & n & _ & Hrow & Hlt & _)]].
    + destruct Hshape as [H|H]; [now elim Ho|unfold rows in H; simpl in H; lia].
    + destruct Hshape as [H|H]; [now elim Ho|lia].
    + rewrite (Hfail i r m n Hrow) in Hlt. discriminate.
Qed.

Lemma corner_match_ratio_zero_witness :
  corner_match (change_match_threshold init 0) (Some reference3)
    (Synthetic.describe frame_AB) [kA]
  = Ok [].
Proof.
  apply corner_match_ratio_zero.
  - vm_compute. reflexivity.
  - right. vm_compute. lia.
Defined.

(** ** The per-frame loop *)

Module LoopBodyFacts.

Section Body.

Context `{V : Vision} `{K : Clustering}.

Variables (self : object_detection) (train_descriptors : descriptors)
          (vars : loop_vars).

(** What the loop body draws from a value of [cluster_coords]. *)
Let drawn (cc : option (list (float * float))) : list (float * float) :=
  match cc with Some cs => cs | None => [] end.

(** The paths through one iteration. *)
Lemma iteration_paths (frame : option Image) :
  (iteration self train_descriptors vars frame = Ok (vars, None) /\
   (frame = None \/
    exists image, frame = Some image /\
                  (length (find_corners self image) <= 1)%nat)) \/
  exists image,
    frame = Some image /\ (1 < length (find_corners self image))%nat /\
    ((exists e,
        corner_match self train_descriptors
          (find_descriptors self image) (find_corners self image) = Raise e /\
        iteration self train_descriptors vars frame = Raise e) \/
     exists good,
       corner_match self train_descriptors
         (find_descriptors self image) (find_corners self image) = Ok good /\
       (((5 < length good)%nat /\
         exists r,
           find_four_clusters good = Ok r /\
           iteration self train_descriptors vars frame
           = Ok ({| good_corners := Some good; cluster_coords := Some r |},
                 Some {| centroids_drawn := drawn r; corners_drawn := good |})) \/
        ((length good <= 5)%nat /\
         iteration self train_descriptors vars frame
         = match cluster_coords vars with
           | None => Raise NameError
           | Some cc =>
               Ok ({| good_corners := Some good; cluster_coords := Some cc |},
                   Some {| centroids_drawn := drawn cc; corners_drawn := good |})
           end))).
Proof.
  destruct frame as [image|]; simpl; [|left; auto].
  destruct (1 <? length (find_corners self image))%nat eqn:G.
  - apply Nat.ltb_lt in G. right. exists image. split; [reflexivity|].
    split; [exact G|].
    destruct (corner_match _ _ _ _) as [good|e]; simpl; [right|left; eauto].
    exists good. split; [reflexivity|].
    destruct (5 <? length good)%nat eqn:G5.
    + apply Nat.ltb_lt in G5. left. split; [exact G5|].
      pose proof (find_four_clusters_cases good) as Hc.
      destruct (KMeans_fit _) as [cs|e]; rewrite Hc; simpl; eauto.
    + apply Nat.ltb_ge in G5. right. split; [exact G5|].
      simpl. now destruct (cluster_coords vars).
  - apply Nat.ltb_ge in G. left. split; [reflexivity|]. right. eauto.
Qed.

(** The guard of the loop is what the matcher stage needs. *)
Lemma guarded_corner_match_returns (image : Image) :
  SIFT_compute_one_row_each ->
  (1 < length (find_corners self image))%nat ->
  exists good,
    corner_match self train_descriptors
      (find_descriptors self image) (find_corners self image) = Ok good.
Proof.
  intros Hrows G. apply corner_match_total;
    rewrite (find_descriptors_rows self image Hrows); lia.
Qed.

Lemma corner_match_no_longer_than_reference
    (new : descriptors) (new_corners good : list KeyPoint) :
  corner_match self train_descriptors new new_corners = Ok good ->
  (length good <= rows train_descriptors)%nat.
Proof.
  intros H. apply corner_match_Ok in H as [_ H]. cbv zeta in H.
  apply Forall2_length in H. rewrite <- H, length_map.
  etransitivity; [apply flat_map_kept_length|].
  rewrite length_map, enumerate_length. apply Nat.le_refl.
Qed.

End Body.

End LoopBodyFacts.

Import LoopBodyFacts.

(** X5.  What an iteration that reaches [imshow] has drawn: the red
    circles are the result of [corner_match] on this frame, all of them
    corners of this frame above the threshold, and they are what
    [good_corners] holds afterwards; with more than five of them the
    green circles are this frame's clustering, which is also what
    [cluster_coords] holds afterwards, and a clustering that gave [None]
    draws no green circle; with five or fewer [cluster_coords] is left
    as it was. *)
Theorem iteration_overlay `{V : Vision} `{K : Clustering}
    (self : object_detection) (train_descriptors : descriptors)
    (vars vars' : loop_vars) (frame : option Image) (o : overlay) :
  iteration self train_descriptors vars frame = Ok (vars', Some o) ->
  exists image,
    frame = Some image /\
    corner_match self train_descriptors
      (find_descriptors self image) (find_corners self image)
    = Ok (corners_drawn o) /\
    good_corners vars' = Some (corners_drawn o) /\
    (forall c, In c (corners_drawn o) ->
               In c (find_corners self image) /\
               fgt (response c) (corner_threshold self) = true) /\
    ((5 < length (corners_drawn o))%nat ->
     exists r,
       find_four_clusters (corners_drawn o) = Ok r /\
       cluster_coords vars' = Some r /\
       centroids_drawn o = match r with Some cs => cs | None => [] end) /\
    ((length (corners_drawn o) <= 5)%nat ->
     cluster_coords vars' = cluster_coords vars).
Proof.
  intros H.
  destruct (iteration_paths self train_descriptors vars frame)
    as [[E _]|(image & -> & G & [(e & _ & E)|(good & Hm & Hc)])];
    try congruence.
  assert (Hgood : forall c, In c good ->
            In c (find_corners self image) /\
            fgt (response c) (corner_threshold self) = true).
  { intros c Hin.
    destruct (corner_match_In _ _ _ _ _ c Hm Hin)
      as (i & r & m & n & _ & _ & _ & Hn & Hg).
    split; [eapply nth_error_In; eauto|exact Hg]. }
  exists image. split; [reflexivity|].
  destruct Hc as [(G5 & r & Hr & E)|(G5 & E)].
  - rewrite E in H. injection H as <- <-. simpl.
    split; [exact Hm|]. split; [reflexivity|]. split; [exact Hgood|]. split.
    + intros _. exists r. auto.
    + intros L. lia.
  - rewrite E in H. destruct (cluster_coords vars) as [cc|] eqn:Ec;
      [|discriminate].
    injection H as <- <-. simpl.
    split; [exact Hm|]. split; [reflexivity|]. split; [exact Hgood|]. split.
    + intros L. lia.
    + intros _. reflexivity.
Qed.

Lemma iteration_overlay_witness :
  exists image,
    Some frame_AB = Some image /\
    corner_match init (Some reference6)
      (find_descriptors init image) (find_corners init image)
    = Ok (repeat kA 6).
Proof.
  assert (H : iteration (K := stand_in_fit) init (Some reference6) unbound
                (Some frame_AB)
              = Ok (after_frame_AB,
                    Some {| centroids_drawn := repeat (pt kA) 4;
                            corners_drawn := repeat kA 6 |}))
    by (vm_compute; reflexivity).
  destruct (iteration_overlay _ _ _ _ _ _ H) as (image & E & Hm & _).
  exists image. split; [exact E|exact Hm].
Defined.

(** X6.  Given [SIFT.compute]'s one row per keypoint, an iteration can
    only end in a [NameError], and it does so exactly when the frame
    passes the guard on its corners, five or fewer of them are good,
    and no earlier iteration has assigned [cluster_coords]: the guard
    [len(new_corners) > 1] keeps the matcher's own errors out. *)
Theorem iteration_raises_only_NameError `{V : Vision} `{K : Clustering}
    (self : object_detection) (train_descriptors : descriptors)
    (vars : loop_vars) (frame : option Image) (e : exn) :
  SIFT_compute_one_row_each ->
  (iteration self train_descriptors vars frame = Raise e <->
   e = NameError /\
   cluster_coords vars = None /\
   exists image good,
     frame = Some image /\
     (1 < length (find_corners self image))%nat /\
     corner_match self train_descriptors
       (find_descriptors self image) (find_corners self image) = Ok good /\
     (length good <= 5)%nat).
Proof.
  intros Hrows.
  destruct (iteration_paths self train_descriptors vars frame)
    as [[E Hskip]|(image & -> & G & [(e' & Hm & E)|(good & Hm & Hc)])].
  - rewrite E. split; [discriminate|].
    intros (_ & _ & image & good & -> & G & _).
    destruct Hskip as [Hn|(image' & [= <-] & Hle)]; [discriminate|lia].
  - destruct (guarded_corner_match_returns self train_descriptors
                image Hrows G) as [good Hg]. congruence.
  - destruct Hc as [(G5 & r & _ & E)|(G5 & E)]; rewrite E.
    + split; [discriminate|].
      intros (_ & _ & image' & good' & [= <-] & _ & Hm' & L).
      rewrite Hm in Hm'. injection Hm' as <-. lia.
    + destruct (cluster_coords vars) as [cc|].
      * split; [discriminate|]. intros (_ & Hn & _). discriminate.
      * split.
        -- intros [= <-]. repeat split. exists image, good. auto.
        -- intros (-> & _). reflexivity.
Qed.

Lemma iteration_raises_only_NameError_witness :
  NameError = NameError /\
  cluster_coords unbound = None /\
  exists image good,
    Some frame_CD = Some image /\
    (1 < length (find_corners init image))%nat /\
    corner_match init (Some reference6)
      (find_descriptors init image) (find_corners init image) = Ok good /\
    (length good <= 5)%nat.
Proof.
  apply (iteration_raises_only_NameError (V := Synthetic.vision)
           (K := stand_in_fit)
           init (Some reference6) unbound (Some frame_CD) NameError).
  - exact synthetic_one_row_each.
  - vm_compute. reflexivity.
Defined.

(** ** The loop over the frames *)

Module RunFacts.

Section Run.

Context `{V : Vision} `{K : Clustering}.

Hypothesis Hrows : SIFT_compute_one_row_each.

Variable train_descriptors : descriptors.

(** An iteration never takes a value out of [cluster_coords]. *)
Lemma iteration_keeps_bound (self : object_detection) (vars vars' : loop_vars)
    (frame : option Image) (o : option overlay) :
  iteration self train_descriptors vars frame = Ok (vars', o) ->
  cluster_coords vars <> None -> cluster_coords vars' <> None.
Proof.
  intros H Hb.
  destruct (iteration_paths self train_descriptors vars frame)
    as [[E _]|(image & -> & G & [(e & _ & E)|(good & _ & Hc)])];
    try congruence.
  destruct Hc as [(_ & r & _ & E)|(_ & E)]; rewrite E in H.
  - injection H as <- _. discriminate.
  - destruct (cluster_coords vars); [|now elim Hb].
    injection H as <- _. discriminate.
Qed.

Lemma iteration_bound_returns (self : object_detection) (vars : loop_vars)
    (frame : option Image) :
  cluster_coords vars <> None ->
  exists r, iteration self train_descriptors vars frame = Ok r.
Proof.
  intros Hb.
  destruct (iteration_paths self train_descriptors vars frame)
    as [[E _]|(image & -> & G & [(e & Hm & E)|(good & _ & Hc)])]; eauto.
  - destruct (guarded_corner_match_returns self train_descriptors
                image Hrows G) as [good Hg]. congruence.
  - destruct Hc as [(_ & r & _ & E)|(_ & E)]; rewrite E; eauto.
    destruct (cluster_coords vars); [eauto|now elim Hb].
Qed.

Lemma iteration_Raise_NameError (self : object_detection) (vars : loop_vars)
    (frame : option Image) (e : exn) :
  iteration self train_descriptors vars frame = Raise e ->
  e = NameError /\ cluster_coords vars = None.
Proof.
  intros H.
  destruct (cluster_coords vars) eqn:Ec.
  - destruct (iteration_bound_returns self vars frame) as [r Hr];
      [congruence|congruence].
  - split; [|reflexivity].
    destruct (iteration_paths self train_descriptors vars frame)
      as [[E _]|(image & -> & G & [(e' & Hm & E)|(good & _ & Hc)])];
      try congruence.
    + destruct (guarded_corner_match_returns self train_descriptors
                  image Hrows G) as [good Hg]. congruence.
    + destruct Hc as [(_ & r & _ & E)|(_ & E)]; rewrite E in H;
        [discriminate|].
      rewrite Ec in H. congruence.
Qed.

Lemma run_bound_returns (frames : list (object_detection * option Image))
    (vars : loop_vars) :
  cluster_coords vars <> None ->
  exists shown,
    run train_descriptors vars frames = Ok shown /\
    length shown = length frames.
Proof.
  revert vars; induction frames as [|[self frame] frames IH]; intros vars Hb;
    simpl; [eauto|].
  destruct (iteration_bound_returns self vars frame Hb) as [[vars' o] E].
  rewrite E. simpl.
  destruct (IH vars' (iteration_keeps_bound _ _ _ _ _ E Hb)) as (shown & -> & L).
  simpl. exists (o :: shown). simpl. auto.
Qed.

Lemma run_Raise_NameError (frames : list (object_detection * option Image))
    (vars : loop_vars) (e : exn) :
  run train_descriptors vars frames = Raise e ->
  e = NameError /\ cluster_coords vars = None.
Proof.
  revert vars; induction frames as [|[self frame] frames IH]; intros vars;
    simpl; [discriminate|].
  destruct (iteration self train_descriptors vars frame) as [[vars' o]|e'] eqn:E;
    simpl.
  - destruct (run train_descriptors vars' frames) as [shown|e'] eqn:R; simpl;
      [discriminate|].
    intros [= <-]. destruct (IH vars' R) as [-> Hn]. split; [reflexivity|].
    destruct (cluster_coords vars) eqn:Ec; [|reflexivity].
    exfalso. apply (iteration_keeps_bound _ _ _ _ _ E); congruence.
  - intros [= <-]. now apply (iteration_Raise_NameError self vars frame).
Qed.

(** With five training descriptors or fewer nothing is ever clustered. *)
Lemma run_few_training_descriptors
    (frames : list (object_detection * option Image)) (vars : loop_vars) :
  (rows train_descriptors <= 5)%nat ->
  cluster_coords vars = None ->
  run train_descriptors vars frames = Raise NameError \/
  run train_descriptors vars frames = Ok (map (fun _ => None) frames).
Proof.
  intros L Hn. induction frames as [|[self frame] frames IH]; simpl; [auto|].
  destruct (iteration_paths self train_descriptors vars frame)
    as [[E _]|(image & -> & G & [(e & Hm & E)|(good & Hm & Hc)])].
  - rewrite E. simpl. destruct IH as [->| ->]; simpl; auto.
  - destruct (guarded_corner_match_returns self train_descriptors
                image Hrows G) as [good Hg]. congruence.
  - pose proof (corner_match_no_longer_than_reference _ _ _ _ _ Hm) as Lg.
    destruct Hc as [(G5 & _)|(_ & E)]; [lia|].
    rewrite E, Hn. simpl. auto.
Qed.

End Run.

End RunFacts.

Import RunFacts.

(** X7.  Given [SIFT.compute]'s one row per keypoint, the loop can only
    stop with a [NameError], and only when it started with
    [cluster_coords] unassigned; once an iteration has assigned
    [cluster_coords] the loop handles every further frame, whatever the
    sliders do in between, and accounts for each of them. *)
Theorem run_stops_only_unbound `{V : Vision} `{K : Clustering}
    (train_descriptors : descriptors) (vars : loop_vars)
    (frames : list (object_detection * option Image)) :
  SIFT_compute_one_row_each ->
  (forall e, run train_descriptors vars frames = Raise e ->
             e = NameError /\ cluster_coords vars = None) /\
  (cluster_coords vars <> None ->
   exists shown,
     run train_descriptors vars frames = Ok shown /\
     length shown = length frames).
Proof.
  intros Hrows. split.
  - intros e H. exact (run_Raise_NameError Hrows _ _ _ _ H).
  - intros Hb. exact (run_bound_returns Hrows _ _ _ Hb).
Qed.

Lemma run_stops_only_unbound_witness :
  exists shown,
    run (K := stand_in_fit) (Some reference6) after_frame_AB
      [(init, Some frame_CD); (slider50, None); (slider0, Some frame_weak)]
    = Ok shown /\
    length shown = 3%nat.
Proof.
  apply (proj2 (run_stops_only_unbound (V := Synthetic.vision)
                  (K := stand_in_fit)
                  (Some reference6) after_frame_AB
                  [(init, Some frame_CD); (slider50, None);
                   (slider0, Some frame_weak)]
                  synthetic_one_row_each)).
  discriminate.
Defined.

(** X8.  Given [SIFT.compute]'s one row per keypoint, a training image
    with five corners or fewer never lets the program show a frame:
    either every frame delivered is skipped (no frame, or fewer than
    two corners), or the first frame that is not stops the program
    with a [NameError]. *)
Theorem main_few_training_corners `{V : Vision} `{K : Clustering}
    (train_image : Image)
    (frames : list (object_detection * option Image)) :
  SIFT_compute_one_row_each ->
  (length (find_corners init train_image) <= 5)%nat ->
  main train_image frames = Raise NameError \/
  main train_image frames = Ok (map (fun _ => None) frames).
Proof.
  intros Hrows L. unfold main. cbv zeta.
  apply (run_few_training_descriptors Hrows).
  - now rewrite (find_descriptors_rows init train_image Hrows).
  - reflexivity.
Qed.

Lemma main_few_training_corners_witness :
  main (K := stand_in_fit) frame_weak [(init, None); (init, Some frame_AB)]
  = Raise NameError \/
  main (K := stand_in_fit) frame_weak [(init, None); (init, Some frame_AB)]
  = Ok (map (fun _ => None) [(init, None); (init, Some frame_AB)]).
Proof.
  apply (main_few_training_corners (V := Synthetic.vision)
           (K := stand_in_fit)).
  - exact synthetic_one_row_each.
  - vm_compute. lia.
Defined.

(** ** The sliders *)

Lemma slider_table (d : float) (a b : Z) :
  forallb (fun i =>
     forallb (fun j =>
        implb (i <=? j)%nat
          (fle (float_of_int (Z.of_nat i) / d) (float_of_int (Z.of_nat j) / d)))
       (seq 0 101))
    (seq 0 101) = true ->
  (0 <= a <= b)%Z -> (b <= 100)%Z ->
  fle (float_of_int a / d) (float_of_int b / d) = true.
Proof.
  intros T Hab Hb. rewrite forallb_forall in T.
  specialize (T (Z.to_nat a)). rewrite forallb_forall in T.
  specialize (T ltac:(apply in_seq; lia) (Z.to_nat b) ltac:(apply in_seq; lia)).
  rewrite !Z2Nat.id in T by lia.
  assert (L : (Z.to_nat a <=? Z.to_nat b)%nat = true) by (apply Nat.leb_le; lia).
  now rewrite L in T.
Qed.

(** X9.  Over the range of the trackbars (0 to 100) both callbacks are
    monotone in the slider position; the corner threshold stays between
    0.0 and 0.1 and the ratio threshold between 0.0 and 1.0; the
    positions the trackbars are created with (0 and 100) give the
    thresholds of [__init__]; and moving the corner slider up never
    makes [find_corners] return more corners for an image. *)
Theorem sliders_monotone `{V : Vision}
    (self : object_detection) (a b : Z) (image : Image) :
  (0 <= a <= b)%Z -> (b <= 100)%Z ->
  fle 0 (corner_threshold (change_corner_threshold self a)) = true /\
  fle (corner_threshold (change_corner_threshold self a))
      (corner_threshold (change_corner_threshold self b)) = true /\
  fle (corner_threshold (change_corner_threshold self b)) 0.1 = true /\
  fle 0 (close_match_threshold (change_match_threshold self a)) = true /\
  fle (close_match_threshold (change_match_threshold self a))
      (close_match_threshold (change_match_threshold self b)) = true /\
  fle (close_match_threshold (change_match_threshold self b)) 1 = true /\
  change_corner_threshold (change_match_threshold self 100) 0 = init /\
  (length (find_corners (change_corner_threshold self b) image)
   <= length (find_corners (change_corner_threshold self a) image))%nat.
Proof.
  intros Hab Hb.
  assert (T1000 : forall x y, (0 <= x <= y)%Z -> (y <= 100)%Z ->
            fle (float_of_int x / 1000) (float_of_int y / 1000) = true).
  { intros x y. apply slider_table. vm_compute. reflexivity. }
  assert (T100 : forall x y, (0 <= x <= y)%Z -> (y <= 100)%Z ->
            fle (float_of_int x / 100) (float_of_int y / 100) = true).
  { intros x y. apply slider_table. vm_compute. reflexivity. }
  assert (Hmono : fle (corner_threshold (change_corner_threshold self a))
                      (corner_threshold (change_corner_threshold self b)) = true)
    by (apply T1000; lia).
  split; [exact (T1000 0%Z a ltac:(lia) ltac:(lia))|].
  split; [exact Hmono|].
  split; [exact (T1000 b 100%Z ltac:(lia) ltac:(lia))|].
  split; [exact (T100 0%Z a ltac:(lia) ltac:(lia))|].
  split; [apply T100; lia|].
  split; [exact (T100 b 100%Z ltac:(lia) ltac:(lia))|].
  split; [vm_compute; reflexivity|].
  unfold find_corners. cbv zeta.
  rewrite <- (filter_filter_weaker
                (fun corner => fgt (response corner)
                                 (corner_threshold (change_corner_threshold self b)))
                (fun corner => fgt (response corner)
                                 (corner_threshold (change_corner_threshold self a)))).
  - apply filter_no_longer.
  - intros corner Hg. exact (fgt_fle_trans _ _ _ Hmono Hg).
Qed.

Lemma sliders_monotone_witness :
  (length (find_corners (change_corner_threshold init 50) frame_weak)
   <= length (find_corners (change_corner_threshold init 3) frame_weak))%nat.
Proof.
  apply (sliders_monotone (V := Synthetic.vision) init 3 50 frame_weak); lia.
Defined.

(** ** The strength test inside the loop *)

(** X10.  On corners that [find_corners] returned at the threshold in
    force, the strength test of [corner_match] rejects nothing: the
    call gives the same result, or raises the same exception, as it
    would with any lower [corner_threshold], so within one iteration
    the ratio test alone decides which corners are good. *)
Theorem corner_match_strength_test_redundant `{V : Vision}
    (self lower : object_detection)
    (original new : descriptors) (image : Image) :
  close_match_threshold lower = close_match_threshold self ->
  fle (corner_threshold lower) (corner_threshold self) = true ->
  corner_match self original new (find_corners self image)
  = corner_match lower original new (find_corners self image).
Proof.
  intros Hr Hle.
  destruct (corner_match lower original new (find_corners self image))
    as [out'|e] eqn:H'.
  - destruct (corner_match_Ok_any_threshold lower self _ _ _ _ Hr H')
      as [out H].
    rewrite H. f_equal.
    rewrite (corner_match_flat_map _ _ _ _ _ H),
      (corner_match_flat_map _ _ _ _ _ H').
    apply flat_map_ext. intros ir. unfold contribution. rewrite Hr.
    destruct (knn_row 2 (rows_of new) ir) as [|m [|n [|x r]]]; try reflexivity.
    destruct (flt (distance m) _); [|reflexivity].
    destruct (nth_error (find_corners self image) (trainIdx m)) as [c|] eqn:Hc;
      [|reflexivity].
    apply nth_error_In in Hc. unfold find_corners in Hc. cbv zeta in Hc.
    apply filter_In in Hc as [_ Hg].
    now rewrite Hg, (fgt_fle_trans _ _ _ Hle Hg).
  - exact (corner_match_Raise_any_threshold lower self _ _ _ e Hr H').
Qed.

Lemma corner_match_strength_test_redundant_witness :
  corner_match slider50 (Some reference3)
    (find_descriptors slider50 frame_weak) (find_corners slider50 frame_weak)
  = corner_match slider0 (Some reference3)
      (find_descriptors slider50 frame_weak) (find_corners slider50 frame_weak).
Proof.
  apply (corner_match_strength_test_redundant (V := Synthetic.vision)).
  - reflexivity.
  - vm_compute. reflexivity.
Defined.
